(** * vim-im-select-obsidian: the mode-transition engine and its IME commands

    A shallow embedding of [src/main.ts] (the plugin as it is now) and of
    [src/unnamed/part_000] (the same plugin before per-platform settings
    records and the [_PREVIOUS_] sentinel were introduced), followed by the
    properties of the specification that were checked against them.

    Conventions of the embedding.
    - A JavaScript string is a [string] (its UTF-8 bytes).  The code only
      ever looks for the ASCII characters of [{im}] and [$], which never
      occur inside a multi-byte sequence, so nothing is lost.
    - A handler runs to completion: every [await] of [main.ts] is inside
      the handler that started it, so a handler is a state transformer.
    - [child_process.exec] is an oracle [exec] over an abstract [World];
      a rejected promise is the result [ExecFail].
    - Everything observable (commands run with their outcome, errors shown
      to the user) is appended to a log. *)

From Stdlib Require Import String Ascii List Bool Arith Lia.
From stdpp Require Import base option strings gmap fin_maps.


(* ===================================================================== *)
(** * JavaScript values, as far as the plugin touches them *)
(* ===================================================================== *)

Module JS.

(** Values a property of the [vim-mode-change] payload can hold, and that
    [previousVimMode] can therefore end up holding. *)
Inductive Prim : Type :=
| Undefined
| Null
| Str (s : string).

(** The argument of [onVimModeChanged] is typed [any]: a primitive or an
    object, the latter given by its own enumerable properties. *)
Inductive Value : Type :=
| Primitive (p : Prim)
| Object (props : gmap string Prim).

Inductive Exn : Type :=
| TypeError (msg : string).

(** [typeof v] *)
Definition typeof (v : Value) : string :=
  match v with
  | Primitive Undefined => "undefined"
  | Primitive Null => "object"
  | Primitive (Str _) => "string"
  | Object _ => "object"
  end.

(** [ToBoolean v] *)
Definition truthy (v : Value) : bool :=
  match v with
  | Primitive Undefined => false
  | Primitive Null => false
  | Primitive (Str s) => negb (String.eqb s "")
  | Object _ => true
  end.

(** [Object.keys(obj)] of an object. *)
Definition Object_keys (props : gmap string Prim) : list string :=
  (map_to_list props).*1.

(** [v.name]: throws on [undefined] and [null], is [undefined] on a string
    (no such property on [String.prototype]) and on an object without it. *)
Definition get_property (v : Value) (name : string) : Exn + Prim :=
  match v with
  | Primitive Undefined =>
      inl (TypeError "Cannot read properties of undefined")
  | Primitive Null =>
      inl (TypeError "Cannot read properties of null")
  | Primitive (Str _) => inr Undefined
  | Object props => inr (default Undefined (props !! name))
  end.

(** [p === "..."] on a primitive. *)
Definition strict_eq_string (p : Prim) (lit : string) : bool :=
  match p with
  | Str s => String.eqb s lit
  | _ => false
  end.

(** [p == "..."]: against a string literal, [undefined] and [null] are
    unequal and a string compares by content, as for [===]. *)
Definition loose_eq_string (p : Prim) (lit : string) : bool :=
  match p with
  | Str s => String.eqb s lit
  | _ => false
  end.

(** ** [String.prototype.replace] with the pattern [/{im}/] *)

(** [strip_prefix tok s] is what follows [tok] when [s] starts with it. *)
Fixpoint strip_prefix (tok s : string) : option string :=
  match tok, s with
  | EmptyString, _ => Some s
  | String a tok', String b s' =>
      if Ascii.eqb a b then strip_prefix tok' s' else None
  | String _ _, EmptyString => None
  end.

(** The leftmost match of a literal pattern: the text before it and the
    text after it.  Without the [u] flag the braces of [/{im}/] are
    literal characters, so the pattern matches the four characters
    [{im}]; without the [g] flag only the leftmost match is used. *)
Fixpoint regexp_exec (tok s : string) : option (string * string) :=
  match strip_prefix tok s with
  | Some after => Some (EmptyString, after)
  | None =>
      match s with
      | EmptyString => None
      | String c s' =>
          match regexp_exec tok s' with
          | Some (before, after) => Some (String c before, after)
          | None => None
          end
      end
  end.

(** [GetSubstitution]: the replacement string is a template.  [$$] is a
    dollar sign, [$&] the matched text, [$`] the text before the match and
    [$'] the text after it.  The pattern has no capture group, so [$1] ..
    [$99] and [$<] are left as they are. *)
Fixpoint GetSubstitution (matched before after replacement : string) : string :=
  match replacement with
  | EmptyString => EmptyString
  | String "$" (String "$" r) =>
      String "$" (GetSubstitution matched before after r)
  | String "$" (String "&" r) =>
      matched +:+ GetSubstitution matched before after r
  | String "$" (String "`" r) =>
      before +:+ GetSubstitution matched before after r
  | String "$" (String "'" r) =>
      after +:+ GetSubstitution matched before after r
  | String c r => String c (GetSubstitution matched before after r)
  end.

Definition im_token : string := "{im}".

(** [template.replace(/{im}/, replacement)] *)
Definition String_replace_im (template replacement : string) : string :=
  match regexp_exec im_token template with
  | None => template
  | Some (before, after) =>
      before +:+ GetSubstitution im_token before after replacement +:+ after
  end.

End JS.

(* ===================================================================== *)
(** * Settings: the nested shape and the persisted flat shape *)
(* ===================================================================== *)

Definition INSERTION_MODE_PREVIOUS : string := "_PREVIOUS_".

Record PlatformSettings : Type := mkPlatformSettings {
  normalIM : string;
  insertionIM : string;
  obtainCmd : string;
  switchCmd : string
}.

Record Settings : Type := mkSettings {
  normalModeOnFocus : bool;
  defaultPlatformSettings : PlatformSettings;
  windowsPlatformSettings : PlatformSettings
}.

(** Settings for (de)serialization. *)
Module Raw.

Record RawSettings : Type := mkRawSettings {
  defaultIM : string;
  insertionIM : string;
  obtainCmd : string;
  switchCmd : string;
  windowsDefaultIM : string;
  windowsInsertionIM : string;
  windowsObtainCmd : string;
  windowsSwitchCmd : string;
  normalModeOnFocus : bool
}.

Definition DEFAULT_SETTINGS : RawSettings := {|
  defaultIM := "";
  insertionIM := INSERTION_MODE_PREVIOUS;
  obtainCmd := "";
  switchCmd := "";
  windowsDefaultIM := "";
  windowsInsertionIM := INSERTION_MODE_PREVIOUS;
  windowsObtainCmd := "";
  windowsSwitchCmd := "";
  normalModeOnFocus := false
|}.

(** What [loadData()] hands back when a data file exists: an object in
    which any of the keys may be missing. *)
Record Data : Type := mkData {
  d_defaultIM : option string;
  d_insertionIM : option string;
  d_obtainCmd : option string;
  d_switchCmd : option string;
  d_windowsDefaultIM : option string;
  d_windowsInsertionIM : option string;
  d_windowsObtainCmd : option string;
  d_windowsSwitchCmd : option string;
  d_normalModeOnFocus : option bool
}.

(** [Object.assign({}, defaults, data)]: a key of [data] wins over the
    default; a [null] source ([None]: no data file yet) adds nothing. *)
Definition Object_assign (defaults : RawSettings) (data : option Data) : RawSettings :=
  match data with
  | None => defaults
  | Some d => {|
      defaultIM := default (defaultIM defaults) (d_defaultIM d);
      insertionIM := default (insertionIM defaults) (d_insertionIM d);
      obtainCmd := default (obtainCmd defaults) (d_obtainCmd d);
      switchCmd := default (switchCmd defaults) (d_switchCmd d);
      windowsDefaultIM := default (windowsDefaultIM defaults) (d_windowsDefaultIM d);
      windowsInsertionIM := default (windowsInsertionIM defaults) (d_windowsInsertionIM d);
      windowsObtainCmd := default (windowsObtainCmd defaults) (d_windowsObtainCmd d);
      windowsSwitchCmd := default (windowsSwitchCmd defaults) (d_windowsSwitchCmd d);
      normalModeOnFocus := default (normalModeOnFocus defaults) (d_normalModeOnFocus d)
    |}
  end.

(** The object [saveData(rawSettings)] writes and a later [loadData()]
    reads back: every key of the object literal is present. *)
Definition saved (r : RawSettings) : Data := {|
  d_defaultIM := Some (defaultIM r);
  d_insertionIM := Some (insertionIM r);
  d_obtainCmd := Some (obtainCmd r);
  d_switchCmd := Some (switchCmd r);
  d_windowsDefaultIM := Some (windowsDefaultIM r);
  d_windowsInsertionIM := Some (windowsInsertionIM r);
  d_windowsObtainCmd := Some (windowsObtainCmd r);
  d_windowsSwitchCmd := Some (windowsSwitchCmd r);
  d_normalModeOnFocus := Some (normalModeOnFocus r)
|}.

End Raw.

(** [loadSettings]: the value the function returns, given what
    [loadData()] produced. *)
Definition loadSettings (data : option Raw.Data) : Settings :=
  let s := Raw.Object_assign Raw.DEFAULT_SETTINGS data in
  {| normalModeOnFocus := Raw.normalModeOnFocus s;
     windowsPlatformSettings := {|
       normalIM := Raw.windowsDefaultIM s;
       insertionIM := Raw.windowsInsertionIM s;
       obtainCmd := Raw.windowsObtainCmd s;
       switchCmd := Raw.windowsSwitchCmd s |};
     defaultPlatformSettings := {|
       normalIM := Raw.defaultIM s;
       insertionIM := Raw.insertionIM s;
       obtainCmd := Raw.obtainCmd s;
       switchCmd := Raw.switchCmd s |} |}.

(** [saveSettings]: the [rawSettings] object handed to [saveData]. *)
Definition saveSettings_raw (s : Settings) : Raw.RawSettings := {|
  Raw.normalModeOnFocus := normalModeOnFocus s;
  Raw.defaultIM := normalIM (defaultPlatformSettings s);
  Raw.insertionIM := insertionIM (defaultPlatformSettings s);
  Raw.obtainCmd := obtainCmd (defaultPlatformSettings s);
  Raw.switchCmd := switchCmd (defaultPlatformSettings s);
  Raw.windowsDefaultIM := normalIM (windowsPlatformSettings s);
  Raw.windowsInsertionIM := insertionIM (windowsPlatformSettings s);
  Raw.windowsObtainCmd := obtainCmd (windowsPlatformSettings s);
  Raw.windowsSwitchCmd := switchCmd (windowsPlatformSettings s)
|}.

(* ===================================================================== *)
(** * The host: running commands, showing errors *)
(* ===================================================================== *)

Module Host.

(** Outcome of [await exec(cmd)]: the captured standard output, or the
    error the promise was rejected with. *)
Inductive ExecResult : Type :=
| ExecOk (stdout : string)
| ExecFail (err : string).

Inductive Event : Type :=
| Exec (cmd : string) (r : ExecResult)
| ShowError (msg : string) (err : string).

(** The commands run, in order. *)
Definition commands (l : list Event) : list string :=
  omap (λ e, match e with Exec cmd _ => Some cmd | ShowError _ _ => None end) l.

(** What one command leaves in the log: itself and, when it failed, the
    error shown under the message [msg]. *)
Definition logged (msg cmd : string) (r : ExecResult) : list Event :=
  Exec cmd r ::
  match r with
  | ExecOk _ => []
  | ExecFail err => [ShowError msg err]
  end.

Record Sys (P World : Type) : Type := mkSys {
  plugin : P;
  world : World;
  log : list Event
}.
Arguments mkSys {P World}.
Arguments plugin {P World}.
Arguments world {P World}.
Arguments log {P World}.

(** A handler body: it may throw, and it changes the plugin, the world
    and the log; what it changed before throwing stays changed. *)
Definition M (P World A : Type) : Type :=
  Sys P World → (JS.Exn + A) * Sys P World.

Section Monad.
Context {P World : Type}.
Variable exec : string → World → ExecResult * World.

Definition ret {A} (a : A) : M P World A := λ s, (inr a, s).

Definition throw {A} (e : JS.Exn) : M P World A := λ s, (inl e, s).

Definition bind {A B} (m : M P World A) (k : A → M P World B) : M P World B :=
  λ s, match m s with
       | (inl e, s') => (inl e, s')
       | (inr a, s') => k a s'
       end.

Definition this : M P World P := λ s, (inr (plugin s), s).

(** An expression that may throw and has no other effect. *)
Definition eval {A} (r : JS.Exn + A) : M P World A := λ s, (r, s).

Definition assign (f : P → P) : M P World unit :=
  λ s, (inr tt, mkSys (f (plugin s)) (world s) (log s)).

(** [await exec(cmd)], with the rejection reified. *)
Definition await_exec (cmd : string) : M P World ExecResult :=
  λ s, let '(r, w) := exec cmd (world s) in
       (inr r, mkSys (plugin s) w (log s ++ [Exec cmd r])).

(** [showError]: [console.error] and a [Notice]. *)
Definition showError (msg err : string) : M P World unit :=
  λ s, (inr tt, mkSys (plugin s) (world s) (log s ++ [ShowError msg err])).

(** The state a handler leaves behind; a rejection is not observed by
    the event source. *)
Definition after {A} (m : M P World A) (s : Sys P World) : Sys P World :=
  (m s).2.
End Monad.

(** A log in which every failed command is followed at once by one error
    shown with that command's error, and no other error is shown.
    [pending] is the error of a failed command not yet reported. *)
Fixpoint reported_from (pending : option string) (l : list Event) : bool :=
  match l, pending with
  | [], None => true
  | Exec _ (ExecOk _) :: l', None => reported_from None l'
  | Exec _ (ExecFail err) :: l', None => reported_from (Some err) l'
  | ShowError _ err' :: l', Some err => String.eqb err err' && reported_from None l'
  | _, _ => false
  end.

Definition every_failure_reported (l : list Event) : bool :=
  reported_from None l.

End Host.

Import Host.

Notation "x <- m ;; k" := (Host.bind m (λ x, k))
  (at level 100, m at next level, right associativity, only parsing).
Notation "m ;; k" := (Host.bind m (λ _, k))
  (at level 100, right associativity, only parsing).

(* ===================================================================== *)
(** * [src/main.ts]: class [VimImPlugin] *)
(* ===================================================================== *)

Module VimImPlugin.

(** The fields of the class.  [settings] is declared without an
    initialiser, so it is [undefined] ([None]) until something assigns
    it; reading a property of it then throws. *)
Record State : Type := mkState {
  settings : option Settings;
  previousIMEMode : option string;
  previousVimMode : JS.Prim;
  isWinPlatform : bool
}.

(** A freshly constructed plugin object. *)
Definition new : State := {|
  settings := None;
  previousIMEMode := None;
  previousVimMode := JS.Str "";
  isWinPlatform := false
|}.

Definition set_previousIMEMode (v : option string) (p : State) : State :=
  mkState (settings p) v (previousVimMode p) (isWinPlatform p).

Definition set_previousVimMode (v : JS.Prim) (p : State) : State :=
  mkState (settings p) (previousIMEMode p) v (isWinPlatform p).

Definition set_isWinPlatform (v : bool) (p : State) : State :=
  mkState (settings p) (previousIMEMode p) (previousVimMode p) v.

(** [isEmpty(obj)]:
    [obj && typeof obj === "object" && Object.keys(obj).length === 0],
    as the condition of an [if]. *)
Definition isEmpty (obj : JS.Value) : bool :=
  JS.truthy obj
  && String.eqb (JS.typeof obj) "object"
  && match obj with
     | JS.Object props => Nat.eqb (length (JS.Object_keys props)) 0
     | JS.Primitive _ => false
     end.

(** The platform record [getPlatformSettings(windows)] selects. *)
Definition platform_of (st : Settings) (windows : bool) : PlatformSettings :=
  if windows then windowsPlatformSettings st else defaultPlatformSettings st.

Section Handlers.
Context {World : Type}.
Variable exec : string → World → ExecResult * World.

Local Abbreviation M := (Host.M State World).

(** [this.settings.<field>] *)
Definition this_settings : M Settings :=
  p <- this ;;
  match settings p with
  | Some st => ret st
  | None => throw (JS.TypeError "Cannot read properties of undefined")
  end.

Definition getPlatformSettings : M PlatformSettings :=
  p <- this ;;
  st <- this_settings ;;
  ret (platform_of st (isWinPlatform p)).

Definition execSwitch (im : string) : M unit :=
  ps <- getPlatformSettings ;;
  let cmd := JS.String_replace_im (switchCmd ps) im in
  r <- await_exec exec cmd ;;
  match r with
  | ExecOk _ => ret tt
  | ExecFail err =>
      showError "An error has occurred while switching IME mode" err
  end.

Definition onInsert : M unit :=
  ps <- getPlatformSettings ;;
  p <- this ;;
  let mode :=
    if String.eqb (insertionIM ps) INSERTION_MODE_PREVIOUS
    then previousIMEMode p
    else Some (insertionIM ps) in
  match mode with
  | None => ret tt
  | Some mode => execSwitch mode
  end.

Definition onNormal : M unit :=
  ps <- getPlatformSettings ;;
  let obtainCmd := obtainCmd ps in
  r <- await_exec exec obtainCmd ;;
  match r with
  | ExecOk stdout => assign (set_previousIMEMode (Some stdout))
  | ExecFail err =>
      showError "An error occcurred while switching IME mode" err
  end ;;
  ps <- getPlatformSettings ;;
  execSwitch (normalIM ps).

Definition onVimModeChanged (modeObj : JS.Value) : M unit :=
  if isEmpty modeObj then ret tt
  else
    mode <- eval (JS.get_property modeObj "mode") ;;
    (if JS.strict_eq_string mode "insert" then onInsert
     else
       p <- this ;;
       if JS.loose_eq_string (previousVimMode p) "insert"
       then onNormal
       else ret tt) ;;
    mode <- eval (JS.get_property modeObj "mode") ;;
    assign (set_previousVimMode mode).

(** The [file-open] handler. *)
Definition onFileOpen : M unit := onNormal.

(** The window [focus] handler, registered by [onload] when
    [normalModeOnFocus] is set. *)
Definition onFocus : M unit :=
  p <- this ;;
  if negb (JS.strict_eq_string (previousVimMode p) "insert")
  then onNormal
  else ret tt.

(** [onload], given what [loadData()] and [os.type()] answer.  The
    value [loadSettings] returns is dropped; registering the handlers
    above with the host changes no field and runs no command. *)
Definition onload (data : option Raw.Data) (os_type : string) : M unit :=
  let _ := loadSettings data in
  assign (set_isWinPlatform (String.eqb os_type "Windows_NT")) ;;
  ps <- getPlatformSettings ;;
  assign (set_previousIMEMode (Some (normalIM ps))) ;;
  st <- this_settings ;;
  ret tt.

(** A run of mode notifications, each handled to completion. *)
Definition notify (s : Sys State World) (modeObj : JS.Value) : Sys State World :=
  after (onVimModeChanged modeObj) s.

Definition notify_all (objs : list JS.Value) (s : Sys State World) : Sys State World :=
  fold_left notify objs s.

(** Everything the host can make the plugin do once it is loaded. *)
Inductive Handler : Type :=
| FileOpen
| Focus
| VimModeChange (modeObj : JS.Value)
| CallOnInsert
| CallOnNormal
| CallExecSwitch (im : string).

Definition run (h : Handler) : M unit :=
  match h with
  | FileOpen => onFileOpen
  | Focus => onFocus
  | VimModeChange modeObj => onVimModeChanged modeObj
  | CallOnInsert => onInsert
  | CallOnNormal => onNormal
  | CallExecSwitch im => execSwitch im
  end.
End Handlers.

(** The platform record in force in a plugin whose settings are [st]. *)
Definition active (st : Settings) (p : State) : PlatformSettings :=
  platform_of st (isWinPlatform p).

(** The input method [onInsert] settles on: [None] when there is nothing
    to switch to. *)
Definition insertion_target (ps : PlatformSettings) (p : State) : option string :=
  if String.eqb (insertionIM ps) INSERTION_MODE_PREVIOUS
  then previousIMEMode p
  else Some (insertionIM ps).

(** Between [s] and [s'], [previousIMEMode] either kept its value or took
    the standard output of an obtain command that succeeded in between. *)
Definition kept_or_captured {World : Type} (s s' : Sys State World) : Prop :=
  previousIMEMode (plugin s') = previousIMEMode (plugin s)
  ∨ ∃ st stdout l,
      settings (plugin s) = Some st
      ∧ log s' = log s ++ Exec (obtainCmd (active st (plugin s))) (ExecOk stdout) :: l
      ∧ previousIMEMode (plugin s') = Some stdout.

(** A notification that carries a mode other than ["insert"]. *)
Definition non_insert_mode (modeObj : JS.Value) : Prop :=
  ∃ props m, modeObj = JS.Object props
             ∧ props !! "mode" = Some m ∧ m ≠ JS.Str "insert".

(** A notification that carries the mode ["insert"]. *)
Definition insert_mode (modeObj : JS.Value) : Prop :=
  ∃ props, modeObj = JS.Object props
           ∧ props !! "mode" = Some (JS.Str "insert").

Definition set_settings (v : Settings) (p : State) : State :=
  mkState (Some v) (previousIMEMode p) (previousVimMode p) (isWinPlatform p).

(** A handler whose argument lets [modeObj.mode] be read: every handler
    but [onVimModeChanged] on [undefined] or [null]. *)
Definition readable (h : Handler) : Prop :=
  match h with
  | VimModeChange modeObj =>
      modeObj ≠ JS.Primitive JS.Undefined ∧ modeObj ≠ JS.Primitive JS.Null
  | _ => True
  end.

(** Handlers run one after the other, each to completion. *)
Definition run_all {World : Type} (exec : string → World → ExecResult * World)
    (hs : list Handler) (s : Sys State World) : Sys State World :=
  fold_left (λ s h, after (run exec h) s) hs s.

End VimImPlugin.

(* ===================================================================== *)
(** * [src/main.ts]: class [SampleSettingTab] and [saveSettings] *)
(* ===================================================================== *)

(** Here the world is the data file of the plugin: what the last
    [saveData] wrote, if any. *)
Module SampleSettingTab.

Import VimImPlugin.

Inductive Field : Type :=
| InsertionIM
| NormalIM
| ObtainCmd
| SwitchCmd.

(** [ps.<field> = value] *)
Definition write_field (f : Field) (value : string) (ps : PlatformSettings)
  : PlatformSettings :=
  match f with
  | InsertionIM => mkPlatformSettings (normalIM ps) value (obtainCmd ps) (switchCmd ps)
  | NormalIM => mkPlatformSettings value (insertionIM ps) (obtainCmd ps) (switchCmd ps)
  | ObtainCmd => mkPlatformSettings (normalIM ps) (insertionIM ps) value (switchCmd ps)
  | SwitchCmd => mkPlatformSettings (normalIM ps) (insertionIM ps) (obtainCmd ps) value
  end.

(** The same assignment seen from the settings object: [ps] is the very
    record of [this.plugin.settings] that the view was created for. *)
Definition write_platform (windows : bool) (f : Field) (value : string)
    (st : Settings) : Settings :=
  if windows
  then mkSettings (normalModeOnFocus st) (defaultPlatformSettings st)
         (write_field f value (windowsPlatformSettings st))
  else mkSettings (normalModeOnFocus st)
         (write_field f value (defaultPlatformSettings st))
         (windowsPlatformSettings st).

Definition write_normalModeOnFocus (value : bool) (st : Settings) : Settings :=
  mkSettings value (defaultPlatformSettings st) (windowsPlatformSettings st).

Local Abbreviation M := (Host.M State (option Raw.Data)).

(** [this.saveData(obj)] *)
Definition saveData (r : Raw.RawSettings) : M unit :=
  λ s, (inr tt, mkSys (plugin s) (Some (Raw.saved r)) (log s)).

(** [VimImPlugin.saveSettings] *)
Definition saveSettings : M unit :=
  st <- this_settings ;;
  saveData (saveSettings_raw st).

(** The [onChange] callback of one of the four text fields of a platform
    view. *)
Definition onChange (windows : bool) (f : Field) (value : string) : M unit :=
  st <- this_settings ;;
  assign (set_settings (write_platform windows f value st)) ;;
  saveSettings.

(** The [onChange] callback of the focus toggle. *)
Definition onToggle (value : bool) : M unit :=
  st <- this_settings ;;
  assign (set_settings (write_normalModeOnFocus value st)) ;;
  saveSettings.

End SampleSettingTab.

(* ===================================================================== *)
(** * [src/unnamed/part_000]: the plugin with flat settings *)
(* ===================================================================== *)

Module Legacy.

Record VimImPluginSettings : Type := mkVimImPluginSettings {
  defaultIM : string;
  obtainCmd : string;
  switchCmd : string;
  windowsDefaultIM : string;
  windowsObtainCmd : string;
  windowsSwitchCmd : string;
  switchOnInsert : bool;
  normalModeOnFocus : bool
}.

Definition DEFAULT_SETTINGS : VimImPluginSettings := {|
  defaultIM := "";
  obtainCmd := "";
  switchCmd := "";
  windowsDefaultIM := "";
  windowsObtainCmd := "";
  windowsSwitchCmd := "";
  switchOnInsert := true;
  normalModeOnFocus := false
|}.

Record Data : Type := mkData {
  d_defaultIM : option string;
  d_obtainCmd : option string;
  d_switchCmd : option string;
  d_windowsDefaultIM : option string;
  d_windowsObtainCmd : option string;
  d_windowsSwitchCmd : option string;
  d_switchOnInsert : option bool;
  d_normalModeOnFocus : option bool
}.

Definition Object_assign (defaults : VimImPluginSettings) (data : option Data)
  : VimImPluginSettings :=
  match data with
  | None => defaults
  | Some d => {|
      defaultIM := default (defaultIM defaults) (d_defaultIM d);
      obtainCmd := default (obtainCmd defaults) (d_obtainCmd d);
      switchCmd := default (switchCmd defaults) (d_switchCmd d);
      windowsDefaultIM := default (windowsDefaultIM defaults) (d_windowsDefaultIM d);
      windowsObtainCmd := default (windowsObtainCmd defaults) (d_windowsObtainCmd d);
      windowsSwitchCmd := default (windowsSwitchCmd defaults) (d_windowsSwitchCmd d);
      switchOnInsert := default (switchOnInsert defaults) (d_switchOnInsert d);
      normalModeOnFocus := default (normalModeOnFocus defaults) (d_normalModeOnFocus d)
    |}
  end.

Record State : Type := mkState {
  settings : option VimImPluginSettings;
  previousIMEMode : option string;
  previousVimMode : JS.Prim;
  isWinPlatform : bool
}.

Definition new : State := {|
  settings := None;
  previousIMEMode := None;
  previousVimMode := JS.Str "";
  isWinPlatform := false
|}.

Definition set_settings (v : VimImPluginSettings) (p : State) : State :=
  mkState (Some v) (previousIMEMode p) (previousVimMode p) (isWinPlatform p).

Definition set_previousIMEMode (v : option string) (p : State) : State :=
  mkState (settings p) v (previousVimMode p) (isWinPlatform p).

Definition set_isWinPlatform (v : bool) (p : State) : State :=
  mkState (settings p) (previousIMEMode p) (previousVimMode p) v.

Section Handlers.
Context {World : Type}.
Variable exec : string → World → ExecResult * World.

Local Abbreviation M := (Host.M State World).

Definition this_settings : M VimImPluginSettings :=
  p <- this ;;
  match settings p with
  | Some st => ret st
  | None => throw (JS.TypeError "Cannot read properties of undefined")
  end.

Definition loadSettings (data : option Data) : M unit :=
  assign (set_settings (Object_assign DEFAULT_SETTINGS data)).

Definition switchToNormalIME : M unit :=
  p <- this ;;
  st <- this_settings ;;
  let switchCmd :=
    if isWinPlatform p
    then JS.String_replace_im (windowsSwitchCmd st) (windowsDefaultIM st)
    else JS.String_replace_im (switchCmd st) (defaultIM st) in
  let obtainCmd :=
    if isWinPlatform p then windowsObtainCmd st else obtainCmd st in
  r <- await_exec exec obtainCmd ;;
  match r with
  | ExecOk stdout =>
      assign (set_previousIMEMode (Some stdout)) ;;
      r' <- await_exec exec switchCmd ;;
      match r' with
      | ExecOk _ => ret tt
      | ExecFail err =>
          showError "An error occcurred while switching IME mode" err
      end
  | ExecFail err =>
      showError "An error occcurred while switching IME mode" err
  end.

Definition onload (data : option Data) (os_type : string) : M unit :=
  loadSettings data ;;
  assign (set_isWinPlatform (String.eqb os_type "Windows_NT")) ;;
  p <- this ;;
  st <- this_settings ;;
  assign (set_previousIMEMode
            (Some (if isWinPlatform p then windowsDefaultIM st else defaultIM st))) ;;
  ret tt.

Definition switchToPreviousIME : M unit :=
  p <- this ;;
  match previousIMEMode p with
  | None => ret tt
  | Some previous =>
      st <- this_settings ;;
      let switchCmd :=
        if isWinPlatform p
        then JS.String_replace_im (windowsSwitchCmd st) previous
        else JS.String_replace_im (switchCmd st) previous in
      r <- await_exec exec switchCmd ;;
      match r with
      | ExecOk _ => ret tt
      | ExecFail err =>
          showError "An error has occurred while switching IME mode" err
      end
  end.

Definition onSwitchToInsert : M unit :=
  st <- this_settings ;;
  if negb (switchOnInsert st) then ret tt else switchToPreviousIME.
End Handlers.

(** The object [saveSettings] hands to [saveData], [this.settings] itself,
    as a later [loadData()] reads it back. *)
Definition saved (st : VimImPluginSettings) : Data := {|
  d_defaultIM := Some (defaultIM st);
  d_obtainCmd := Some (obtainCmd st);
  d_switchCmd := Some (switchCmd st);
  d_windowsDefaultIM := Some (windowsDefaultIM st);
  d_windowsObtainCmd := Some (windowsObtainCmd st);
  d_windowsSwitchCmd := Some (windowsSwitchCmd st);
  d_switchOnInsert := Some (switchOnInsert st);
  d_normalModeOnFocus := Some (normalModeOnFocus st)
|}.

End Legacy.

(* ===================================================================== *)
(** * From [part_000] to [main.ts] *)
(* ===================================================================== *)

(** The data file [part_000] wrote, as [loadSettings] of [main.ts] reads
    it: the keys have kept their names, the two insertion keys did not
    exist yet, and [switchOnInsert] is no longer looked at. *)
Definition legacy_data (st : Legacy.VimImPluginSettings) : Raw.Data := {|
  Raw.d_defaultIM := Some (Legacy.defaultIM st);
  Raw.d_insertionIM := None;
  Raw.d_obtainCmd := Some (Legacy.obtainCmd st);
  Raw.d_switchCmd := Some (Legacy.switchCmd st);
  Raw.d_windowsDefaultIM := Some (Legacy.windowsDefaultIM st);
  Raw.d_windowsInsertionIM := None;
  Raw.d_windowsObtainCmd := Some (Legacy.windowsObtainCmd st);
  Raw.d_windowsSwitchCmd := Some (Legacy.windowsSwitchCmd st);
  Raw.d_normalModeOnFocus := Some (Legacy.normalModeOnFocus st)
|}.

(** A plugin of [part_000] carried over: the same fields, the settings as
    [main.ts] loads them from the old data file. *)
Definition upgrade (p : Legacy.State) : VimImPlugin.State := {|
  VimImPlugin.settings :=
    (λ st, loadSettings (Some (legacy_data st))) <$> Legacy.settings p;
  VimImPlugin.previousIMEMode := Legacy.previousIMEMode p;
  VimImPlugin.previousVimMode := Legacy.previousVimMode p;
  VimImPlugin.isWinPlatform := Legacy.isWinPlatform p
|}.

Definition upgrade_sys {World : Type} (s : Sys Legacy.State World)
  : Sys VimImPlugin.State World :=
  mkSys (upgrade (plugin s)) (world s) (log s).

(* ===================================================================== *)
(** * The specification's own notions *)
(* ===================================================================== *)

Module Spec.

(** "Replacing the first literal occurrence of the token with [im], later
    occurrences left intact", said without reference to the code. *)
Definition occurs_at (tok s : string) (n : nat) : Prop :=
  ∃ pre post, s = pre +:+ tok +:+ post ∧ String.length pre = n.

Definition replaces_first_occurrence (tok s im result : string) : Prop :=
  (∃ pre post,
      s = pre +:+ tok +:+ post
      ∧ (∀ n, n < String.length pre → ¬ occurs_at tok s n)
      ∧ result = pre +:+ im +:+ post)
  ∨ ((∀ n, ¬ occurs_at tok s n) ∧ result = s).

(** "Trimmed" standard output: white space removed at both ends. *)
Definition is_space (c : ascii) : bool :=
  let n := nat_of_ascii c in
  Nat.eqb n 32 || (Nat.leb 9 n && Nat.leb n 13).

Fixpoint trim_start (s : string) : string :=
  match s with
  | EmptyString => EmptyString
  | String c s' => if is_space c then trim_start s' else s
  end.

Fixpoint trim_end (s : string) : string :=
  match s with
  | EmptyString => EmptyString
  | String c s' =>
      match trim_end s' with
      | EmptyString => if is_space c then EmptyString else String c EmptyString
      | t => String c t
      end
  end.

Definition trimmed (s : string) : string := trim_end (trim_start s).

(** An identifier in which [replace] finds nothing to expand. *)
Fixpoint dollar_free (s : string) : bool :=
  match s with
  | EmptyString => true
  | String c s' => negb (Ascii.eqb c "$") && dollar_free s'
  end.

End Spec.

(* ===================================================================== *)
(** * Concrete configurations and shells *)
(* ===================================================================== *)

Module Sample.

Definition LF : string := String (ascii_of_nat 10) EmptyString.

Definition mac : PlatformSettings := {|
  normalIM := "com.apple.keylayout.ABC";
  insertionIM := INSERTION_MODE_PREVIOUS;
  obtainCmd := "im-select";
  switchCmd := "im-select {im}"
|}.

Definition win : PlatformSettings := {|
  normalIM := "1033";
  insertionIM := "2052";
  obtainCmd := "im-select.exe";
  switchCmd := "im-select.exe {im}"
|}.

Definition config : Settings := {|
  normalModeOnFocus := false;
  defaultPlatformSettings := mac;
  windowsPlatformSettings := win
|}.

(** A shell whose answer depends on the command only. *)
Definition shell (answer : string → ExecResult) (cmd : string) (w : unit)
  : ExecResult * unit := (answer cmd, w).

(** [im-select] alone prints the current input method; with an argument
    it prints nothing. *)
Definition pinyin_active (cmd : string) : ExecResult :=
  if String.eqb cmd "im-select" then ExecOk ("pinyin" +:+ LF) else ExecOk "".

(** The obtain command is not installed; switching works. *)
Definition obtain_broken (cmd : string) : ExecResult :=
  if String.eqb cmd "im-select" then ExecFail "ENOENT" else ExecOk "".

Definition plugin_with (st : Settings) (ime : option string) (vim : JS.Prim)
  : VimImPlugin.State :=
  VimImPlugin.mkState (Some st) ime vim false.

Definition start (p : VimImPlugin.State) : Sys VimImPlugin.State unit :=
  mkSys p tt [].

(** A configuration whose insertion input method has dollar signs in
    its name. *)
Definition dollars : Settings := {|
  normalModeOnFocus := false;
  defaultPlatformSettings := {|
    normalIM := "com.apple.keylayout.ABC";
    insertionIM := "A$$B";
    obtainCmd := "im-select";
    switchCmd := "im-select {im}" |};
  windowsPlatformSettings := win
|}.

(** Payloads of [vim-mode-change]. *)
Definition normal : JS.Value := JS.Object {[ "mode" := JS.Str "normal" ]}.
Definition visual : JS.Value :=
  JS.Object (<[ "subMode" := JS.Str "linewise" ]> {[ "mode" := JS.Str "visual" ]}).
Definition insert : JS.Value := JS.Object {[ "mode" := JS.Str "insert" ]}.
Definition no_mode : JS.Value := JS.Object {[ "subMode" := JS.Str "linewise" ]}.

Definition legacy_config : Legacy.VimImPluginSettings := {|
  Legacy.defaultIM := "com.apple.keylayout.ABC";
  Legacy.obtainCmd := "im-select";
  Legacy.switchCmd := "im-select {im}";
  Legacy.windowsDefaultIM := "1033";
  Legacy.windowsObtainCmd := "im-select.exe";
  Legacy.windowsSwitchCmd := "im-select.exe {im}";
  Legacy.switchOnInsert := true;
  Legacy.normalModeOnFocus := false
|}.

Definition legacy_start (p : Legacy.State) : Sys Legacy.State unit :=
  mkSys p tt [].

(** A configuration whose switch command takes no argument. *)
Definition toggling : Settings := {|
  normalModeOnFocus := false;
  defaultPlatformSettings := {|
    normalIM := "keyboard-us";
    insertionIM := INSERTION_MODE_PREVIOUS;
    obtainCmd := "fcitx5-remote -n";
    switchCmd := "fcitx5-remote -c" |};
  windowsPlatformSettings := win
|}.

(** [legacy_config] with [switchOnInsert] turned off. *)
Definition legacy_config_off : Legacy.VimImPluginSettings := {|
  Legacy.defaultIM := "com.apple.keylayout.ABC";
  Legacy.obtainCmd := "im-select";
  Legacy.switchCmd := "im-select {im}";
  Legacy.windowsDefaultIM := "1033";
  Legacy.windowsObtainCmd := "im-select.exe";
  Legacy.windowsSwitchCmd := "im-select.exe {im}";
  Legacy.switchOnInsert := false;
  Legacy.normalModeOnFocus := false
|}.

(** The settings tab opened on a plugin, no data file written yet. *)
Definition tab_start (p : VimImPlugin.State)
  : Sys VimImPlugin.State (option Raw.Data) :=
  mkSys p None [].

End Sample.

(* ===================================================================== *)
(** * Facts about strings and the substitution *)
(* ===================================================================== *)

Section StringFacts.

Lemma append_nil_l (s : string) : "" +:+ s = s.
Proof. reflexivity. Qed.

Lemma append_cons (c : ascii) (s t : string) :
  String c s +:+ t = String c (s +:+ t).
Proof. reflexivity. Qed.

Lemma append_nil_r (s : string) : s +:+ "" = s.
Proof.
  induction s as [|c s IH]; [reflexivity|].
  rewrite append_cons. now f_equal.
Qed.

Lemma append_assoc (a b c : string) : (a +:+ b) +:+ c = a +:+ (b +:+ c).
Proof.
  induction a as [|x a IH]; [reflexivity|].
  rewrite !append_cons. now f_equal.
Qed.

Lemma length_append (a b : string) :
  String.length (a +:+ b) = String.length a + String.length b.
Proof.
  induction a as [|x a IH]; [reflexivity|].
  rewrite append_cons. simpl. now f_equal.
Qed.

(** Two ways of cutting one string at the same position agree. *)
Lemma append_cut (a b a' b' : string) :
  a +:+ b = a' +:+ b' → String.length a = String.length a' → a = a' ∧ b = b'.
Proof.
  revert a'. induction a as [|x a IH]; intros [|x' a'] Heq Hlen;
    simpl in Hlen; try discriminate.
  - auto.
  - rewrite !append_cons in Heq.
    injection Heq as -> Heq. injection Hlen as Hlen.
    destruct (IH _ Heq Hlen) as [-> ->]. auto.
Qed.

Lemma strip_prefix_Some (tok s r : string) :
  JS.strip_prefix tok s = Some r ↔ s = tok +:+ r.
Proof.
  revert s. induction tok as [|a tok IH]; intros s; simpl.
  - rewrite append_nil_l. split; [intros [= ->] | intros ->]; reflexivity.
  - rewrite append_cons. destruct s as [|b s].
    + split; discriminate.
    + destruct (Ascii.eqb_spec a b) as [->|Hne].
      * rewrite IH. split; [intros -> | intros [= ->]]; reflexivity.
      * split; [discriminate | intros [= <- _]; congruence].
Qed.

Lemma strip_prefix_None (tok s : string) :
  JS.strip_prefix tok s = None → ∀ r, s ≠ tok +:+ r.
Proof.
  intros H r Hs. apply strip_prefix_Some in Hs. congruence.
Qed.

(** What [regexp_exec] returns is a match ... *)
Lemma regexp_exec_Some (tok s before after : string) :
  JS.regexp_exec tok s = Some (before, after) → s = before +:+ tok +:+ after.
Proof.
  revert before. induction s as [|c s IH]; intros before; simpl.
  - destruct (JS.strip_prefix tok "") eqn:E; [|discriminate].
    intros [= <- <-]. now apply strip_prefix_Some in E.
  - destruct (JS.strip_prefix tok (String c s)) eqn:E.
    + intros [= <- <-]. now apply strip_prefix_Some in E.
    + destruct (JS.regexp_exec tok s) as [[b a]|]; [|discriminate].
      intros [= <- <-]. rewrite append_cons. f_equal. now apply IH.
Qed.

(** ... and no match starts further left. *)
Lemma regexp_exec_leftmost (tok s before after : string) :
  JS.regexp_exec tok s = Some (before, after) →
  ∀ n, n < String.length before → ¬ Spec.occurs_at tok s n.
Proof.
  revert before. induction s as [|c s IH]; intros before; simpl.
  - destruct (JS.strip_prefix tok ""); [|discriminate].
    intros [= <- <-] n Hn. simpl in Hn. lia.
  - destruct (JS.strip_prefix tok (String c s)) eqn:E.
    + intros [= <- <-] n Hn. simpl in Hn. lia.
    + destruct (JS.regexp_exec tok s) as [[b a]|] eqn:Er; [|discriminate].
      intros [= <- <-] n Hn (pre & post & Hs & Hlen).
      destruct pre as [|x pre].
      * now apply (strip_prefix_None _ _ E post).
      * rewrite append_cons in Hs. injection Hs as -> Hs.
        simpl in Hlen, Hn. subst n.
        apply (IH b eq_refl (String.length pre)); [lia|].
        now exists pre, post.
Qed.

Lemma regexp_exec_None (tok s : string) :
  JS.regexp_exec tok s = None → ∀ n, ¬ Spec.occurs_at tok s n.
Proof.
  induction s as [|c s IH]; simpl.
  - destruct (JS.strip_prefix tok "") eqn:E; [discriminate|].
    intros _ n (pre & post & Hs & _).
    destruct pre as [|x pre]; [|discriminate].
    now apply (strip_prefix_None _ _ E post).
  - destruct (JS.strip_prefix tok (String c s)) eqn:E; [discriminate|].
    destruct (JS.regexp_exec tok s) as [[b a]|] eqn:Er; [discriminate|].
    intros _ n (pre & post & Hs & Hlen).
    destruct pre as [|x pre].
    + now apply (strip_prefix_None _ _ E post).
    + rewrite append_cons in Hs. injection Hs as -> Hs.
      apply (IH eq_refl (String.length pre)). now exists pre, post.
Qed.

(** Without a dollar sign the replacement template is the text itself. *)
Lemma GetSubstitution_dollar_free (matched before after im : string) :
  Spec.dollar_free im = true →
  JS.GetSubstitution matched before after im = im.
Proof.
  induction im as [|c im IH]; [reflexivity|].
  simpl Spec.dollar_free. intros [Hc Him]%andb_true_iff.
  destruct (Ascii.eqb_spec c "$") as [->|Hne]; [discriminate|].
  specialize (IH Him).
  assert (JS.GetSubstitution matched before after (String c im)
          = String c (JS.GetSubstitution matched before after im)) as ->.
  { destruct c as [[] [] [] [] [] [] [] []]; try reflexivity.
    now destruct Hne. }
  now f_equal.
Qed.

(** The specification's relation determines its result. *)
Lemma replaces_first_occurrence_functional (tok s im r1 r2 : string) :
  Spec.replaces_first_occurrence tok s im r1 →
  Spec.replaces_first_occurrence tok s im r2 →
  r1 = r2.
Proof.
  intros [(p1 & q1 & Hs1 & Hmin1 & ->)|[Hno1 ->]]
         [(p2 & q2 & Hs2 & Hmin2 & ->)|[Hno2 ->]].
  - assert (String.length p1 = String.length p2) as Hlen.
    { destruct (Nat.lt_trichotomy (String.length p1) (String.length p2))
        as [Hlt|[Heq|Hgt]]; [|assumption|].
      - destruct (Hmin2 _ Hlt). now exists p1, q1.
      - destruct (Hmin1 _ Hgt). now exists p2, q2. }
    rewrite Hs1 in Hs2.
    destruct (append_cut _ _ _ _ Hs2 Hlen) as [-> Hq].
    destruct (append_cut tok q1 tok q2 Hq eq_refl) as [_ ->]. reflexivity.
  - destruct (Hno2 (String.length p1)). now exists p1, q1.
  - destruct (Hno1 (String.length p2)). now exists p2, q2.
  - reflexivity.
Qed.

(** For an identifier without a dollar sign, [execSwitch]'s substitution
    is the literal replacement of the first occurrence. *)
Lemma String_replace_im_literal (template im : string) :
  Spec.dollar_free im = true →
  Spec.replaces_first_occurrence JS.im_token template im
    (JS.String_replace_im template im).
Proof.
  intros Him. unfold JS.String_replace_im.
  destruct (JS.regexp_exec JS.im_token template) as [[before after]|] eqn:E.
  - left. exists before, after. split; [|split].
    + now apply regexp_exec_Some.
    + now apply regexp_exec_leftmost with (after := after).
    + now rewrite GetSubstitution_dollar_free.
  - right. split; [now apply regexp_exec_None | reflexivity].
Qed.

(** A template without the token is run as it is. *)
Lemma String_replace_im_no_token (template im : string) :
  JS.regexp_exec JS.im_token template = None →
  JS.String_replace_im template im = template.
Proof. intros E. unfold JS.String_replace_im. now rewrite E. Qed.

End StringFacts.

(* ===================================================================== *)
(** * What each handler of [main.ts] does *)
(* ===================================================================== *)

Section HandlerFacts.
Context {World : Type}.
Variable exec : string → World → ExecResult * World.

Import VimImPlugin.
Implicit Types (s : Sys State World) (st : Settings) (p : State).

Lemma commands_app (l1 l2 : list Event) :
  commands (l1 ++ l2) = commands l1 ++ commands l2.
Proof. unfold commands. apply omap_app. Qed.

Lemma commands_logged (msg cmd : string) (r : ExecResult) :
  commands (logged msg cmd r) = [cmd].
Proof. destruct r; reflexivity. Qed.

Lemma isEmpty_true (obj : JS.Value) :
  isEmpty obj = true ↔ obj = JS.Object ∅.
Proof.
  destruct obj as [[| |x]|props]; simpl.
  1-2: split; discriminate.
  - unfold isEmpty. simpl. rewrite andb_false_r. split; discriminate.
  - unfold isEmpty, JS.Object_keys. simpl.
    rewrite Nat.eqb_eq, length_fmap, length_zero_iff_nil.
    rewrite map_to_list_empty_iff. split; [now intros ->|now intros [= ->]].
Qed.

Lemma isEmpty_with_mode (props : gmap string JS.Prim) (m : JS.Prim) :
  props !! "mode" = Some m → isEmpty (JS.Object props) = false.
Proof.
  intros Hm. destruct (isEmpty (JS.Object props)) eqn:E; [|reflexivity].
  apply isEmpty_true in E. injection E as ->.
  now rewrite lookup_empty in Hm.
Qed.

(** Without settings every access to a platform record throws, before
    anything else happens. *)
Lemma getPlatformSettings_undefined s :
  settings (plugin s) = None →
  ∃ e, getPlatformSettings s = (inl e, s).
Proof.
  intros H. unfold getPlatformSettings, this_settings, bind, this. simpl.
  rewrite H. eauto.
Qed.

Lemma getPlatformSettings_defined s st :
  settings (plugin s) = Some st →
  getPlatformSettings s = (inr (active st (plugin s)), s).
Proof.
  intros H. unfold getPlatformSettings, this_settings, bind, this. simpl.
  now rewrite H.
Qed.

Lemma execSwitch_undefined s im :
  settings (plugin s) = None → ∃ e, execSwitch exec im s = (inl e, s).
Proof.
  intros H. destruct (getPlatformSettings_undefined s H) as [e He].
  exists e. unfold execSwitch, bind at 1. now rewrite He.
Qed.

Lemma onInsert_undefined s :
  settings (plugin s) = None → ∃ e, onInsert exec s = (inl e, s).
Proof.
  intros H. destruct (getPlatformSettings_undefined s H) as [e He].
  exists e. unfold onInsert, bind at 1. now rewrite He.
Qed.

Lemma onNormal_undefined s :
  settings (plugin s) = None → ∃ e, onNormal exec s = (inl e, s).
Proof.
  intros H. destruct (getPlatformSettings_undefined s H) as [e He].
  exists e. unfold onNormal, bind at 1. now rewrite He.
Qed.

(** [execSwitch] runs exactly one command and changes no field. *)
Lemma execSwitch_run s st im r w :
  settings (plugin s) = Some st →
  exec (JS.String_replace_im (switchCmd (active st (plugin s))) im) (world s)
    = (r, w) →
  execSwitch exec im s =
    (inr tt,
     mkSys (plugin s) w
       (log s ++ logged "An error has occurred while switching IME mode"
                   (JS.String_replace_im (switchCmd (active st (plugin s))) im) r)).
Proof.
  intros Hst Hex. unfold execSwitch, bind at 1.
  rewrite (getPlatformSettings_defined s st Hst).
  unfold bind, await_exec. rewrite Hex.
  destruct r as [out|err]; simpl; [reflexivity|].
  unfold showError. simpl. now rewrite <- app_assoc.
Qed.

(** [onInsert] picks its target and leaves the rest to [execSwitch]. *)
Lemma onInsert_dispatch s st :
  settings (plugin s) = Some st →
  onInsert exec s =
    match insertion_target (active st (plugin s)) (plugin s) with
    | None => (inr tt, s)
    | Some mode => execSwitch exec mode s
    end.
Proof.
  intros Hst. unfold onInsert, bind at 1.
  rewrite (getPlatformSettings_defined s st Hst).
  unfold bind at 1, this, insertion_target.
  now destruct (String.eqb _ _), (previousIMEMode (plugin s)).
Qed.

(** [onNormal] runs the obtain command, then the switch command, whatever
    the first one answered. *)
Lemma onNormal_run s st r1 w1 r2 w2 :
  settings (plugin s) = Some st →
  let ps := active st (plugin s) in
  exec (obtainCmd ps) (world s) = (r1, w1) →
  exec (JS.String_replace_im (switchCmd ps) (normalIM ps)) w1 = (r2, w2) →
  onNormal exec s =
    (inr tt,
     mkSys (match r1 with
            | ExecOk stdout => set_previousIMEMode (Some stdout) (plugin s)
            | ExecFail _ => plugin s
            end)
           w2
           (log s
            ++ logged "An error occcurred while switching IME mode" (obtainCmd ps) r1
            ++ logged "An error has occurred while switching IME mode"
                 (JS.String_replace_im (switchCmd ps) (normalIM ps)) r2)).
Proof.
  intros Hst ps Hob Hsw. unfold onNormal, bind at 1.
  rewrite (getPlatformSettings_defined s st Hst). fold ps.
  unfold bind at 1, await_exec at 1. rewrite Hob.
  destruct r1 as [out|err].
  - unfold bind at 1, assign at 1. simpl.
    unfold bind at 1.
    rewrite (getPlatformSettings_defined _ st) by (simpl; exact Hst).
    simpl plugin.
    rewrite (execSwitch_run _ st (normalIM ps) r2 w2); simpl; try assumption.
    now rewrite <- app_assoc.
  - unfold bind at 1, showError at 1. simpl.
    unfold bind at 1.
    rewrite (getPlatformSettings_defined _ st) by (simpl; exact Hst).
    simpl plugin.
    rewrite (execSwitch_run _ st (normalIM ps) r2 w2); simpl; try assumption.
    now rewrite <- !app_assoc.
Qed.

Lemma loose_eq_insert (v : JS.Prim) :
  JS.loose_eq_string v "insert" = true ↔ v = JS.Str "insert".
Proof.
  destruct v as [| |x]; simpl; try (split; discriminate).
  rewrite String.eqb_eq. split; [now intros ->|now intros [= ->]].
Qed.

Lemma strict_eq_insert (v : JS.Prim) :
  JS.strict_eq_string v "insert" = true ↔ v = JS.Str "insert".
Proof. apply loose_eq_insert. Qed.

(** The handler on a payload that is not the empty object and whose
    [mode] can be read. *)
Lemma onVimModeChanged_property s (modeObj : JS.Value) (m : JS.Prim) :
  isEmpty modeObj = false →
  JS.get_property modeObj "mode" = inr m →
  onVimModeChanged exec modeObj s =
    (if JS.strict_eq_string m "insert"
     then Host.bind (onInsert exec) (λ _, assign (set_previousVimMode m)) s
     else if JS.loose_eq_string (previousVimMode (plugin s)) "insert"
          then Host.bind (onNormal exec) (λ _, assign (set_previousVimMode m)) s
          else assign (set_previousVimMode m) s).
Proof.
  intros Hne Hm. unfold onVimModeChanged. rewrite Hne, Hm.
  unfold bind at 1, eval at 1.
  destruct (JS.strict_eq_string m "insert").
  - unfold bind. destruct (onInsert exec s) as [[e|[]] s']; reflexivity.
  - unfold bind at 1. unfold bind at 1, this at 1.
    destruct (JS.loose_eq_string (previousVimMode (plugin s)) "insert").
    + unfold bind. destruct (onNormal exec s) as [[e|[]] s']; reflexivity.
    + reflexivity.
Qed.

(** The handler on an object that has a [mode] property. *)
Lemma onVimModeChanged_mode s (props : gmap string JS.Prim) (m : JS.Prim) :
  props !! "mode" = Some m →
  onVimModeChanged exec (JS.Object props) s =
    (if JS.strict_eq_string m "insert"
     then Host.bind (onInsert exec) (λ _, assign (set_previousVimMode m)) s
     else if JS.loose_eq_string (previousVimMode (plugin s)) "insert"
          then Host.bind (onNormal exec) (λ _, assign (set_previousVimMode m)) s
          else assign (set_previousVimMode m) s).
Proof.
  intros Hm. apply onVimModeChanged_property.
  - exact (isEmpty_with_mode props m Hm).
  - simpl. now rewrite Hm.
Qed.

(** A notification with a mode other than ["insert"], received while the
    last mode was not ["insert"], only records the mode. *)
Lemma notify_between_non_insert s (modeObj : JS.Value) :
  non_insert_mode modeObj →
  previousVimMode (plugin s) ≠ JS.Str "insert" →
  ∃ m, m ≠ JS.Str "insert" ∧
       notify exec s modeObj =
         mkSys (set_previousVimMode m (plugin s)) (world s) (log s).
Proof.
  intros (props & m & -> & Hm & Hne) Hprev. exists m. split; [assumption|].
  unfold notify, after. rewrite (onVimModeChanged_mode s props _ Hm).
  destruct (JS.strict_eq_string m "insert") eqn:E1.
  { apply strict_eq_insert in E1. congruence. }
  destruct (JS.loose_eq_string (previousVimMode (plugin s)) "insert") eqn:E2.
  { apply loose_eq_insert in E2. congruence. }
  reflexivity.
Qed.

End HandlerFacts.

(* ===================================================================== *)
(** * The mode-transition engine *)
(* ===================================================================== *)

Section Engine.
Context {World : Type}.
Variable exec : string → World → ExecResult * World.

Import VimImPlugin.
Implicit Types (s : Sys State World) (st : Settings).

(** C3.  A notification whose [mode] is anything but ["insert"]
    runs [onNormal] when [previousVimMode] is ["insert"] and runs
    nothing when it is not; with settings in place this shows in the
    commands run: some are run exactly when [previousVimMode] was
    ["insert"].  Hence a run of such notifications that starts while
    [previousVimMode] is not ["insert"], as in a new plugin, runs no
    command at all and shows no error. *)
Theorem non_insert_notification_switches_only_after_insert :
  (∀ s props m,
      props !! "mode" = Some m → m ≠ JS.Str "insert" →
      (previousVimMode (plugin s) = JS.Str "insert" →
       onVimModeChanged exec (JS.Object props) s
       = Host.bind (onNormal exec) (λ _, assign (set_previousVimMode m)) s)
      ∧ (previousVimMode (plugin s) ≠ JS.Str "insert" →
         onVimModeChanged exec (JS.Object props) s
         = assign (set_previousVimMode m) s))
  ∧ (∀ s st modeObj,
        settings (plugin s) = Some st → non_insert_mode modeObj →
        commands (log (notify exec s modeObj)) ≠ commands (log s)
        ↔ previousVimMode (plugin s) = JS.Str "insert")
  ∧ previousVimMode new ≠ JS.Str "insert"
  ∧ (∀ objs s,
        previousVimMode (plugin s) ≠ JS.Str "insert" →
        Forall non_insert_mode objs →
        log (notify_all exec objs s) = log s
        ∧ world (notify_all exec objs s) = world s
        ∧ previousIMEMode (plugin (notify_all exec objs s))
          = previousIMEMode (plugin s)).
Proof.
  split; [|split; [|split]].
  - intros s props m Hm Hne.
    rewrite (onVimModeChanged_mode exec s props _ Hm).
    destruct (JS.strict_eq_string m "insert") eqn:E1.
    { apply strict_eq_insert in E1. congruence. }
    split; intros Hprev.
    + rewrite Hprev. reflexivity.
    + destruct (JS.loose_eq_string (previousVimMode (plugin s)) "insert") eqn:E2;
        [|reflexivity].
      apply loose_eq_insert in E2. contradiction.
  - intros s st modeObj Hst Hni. split.
    + intros Hcmd.
      destruct (JS.loose_eq_string (previousVimMode (plugin s)) "insert") eqn:E.
      * now apply loose_eq_insert in E.
      * destruct (notify_between_non_insert exec s modeObj Hni) as (m & _ & Heq).
        { intros Hp. apply loose_eq_insert in Hp. congruence. }
        rewrite Heq in Hcmd. now destruct Hcmd.
    + intros Hprev. destruct Hni as (props & m & -> & Hm & Hne).
      unfold notify, after. rewrite (onVimModeChanged_mode exec s props _ Hm).
      destruct (JS.strict_eq_string m "insert") eqn:E1.
      { apply strict_eq_insert in E1. congruence. }
      rewrite Hprev. simpl JS.loose_eq_string.
      destruct (exec (obtainCmd (active st (plugin s))) (world s))
        as [r1 w1] eqn:Hob.
      destruct (exec (JS.String_replace_im (switchCmd (active st (plugin s)))
                        (normalIM (active st (plugin s)))) w1)
        as [r2 w2] eqn:Hsw.
      unfold bind.
      rewrite (onNormal_run exec s st r1 w1 r2 w2 Hst Hob Hsw).
      unfold assign. cbn [log snd].
      rewrite !commands_app, !commands_logged.
      intros Heq. apply (f_equal (@length string)) in Heq.
      rewrite !length_app in Heq. simpl in Heq. lia.
  - discriminate.
  - intros objs. induction objs as [|obj objs IH]; intros s Hprev Hall.
    + auto.
    + inversion Hall as [|? ? Hobj Hrest]; subst.
      destruct (notify_between_non_insert exec s obj Hobj Hprev)
        as (m & Hne & Heq).
      change (notify_all exec (obj :: objs) s)
        with (notify_all exec objs (notify exec s obj)).
      rewrite Heq.
      destruct (IH (mkSys (set_previousVimMode m (plugin s))
                      (world s) (log s))) as (Hl & Hw & Hp);
        [simpl; congruence | assumption |].
      rewrite Hl, Hw, Hp. auto.
Qed.

(** One ["insert"] notification, when [onInsert] has a target. *)
Lemma notify_insert s st modeObj im r w :
  insert_mode modeObj →
  settings (plugin s) = Some st →
  insertion_target (active st (plugin s)) (plugin s) = Some im →
  exec (JS.String_replace_im (switchCmd (active st (plugin s))) im) (world s)
    = (r, w) →
  notify exec s modeObj =
    mkSys (set_previousVimMode (JS.Str "insert") (plugin s)) w
      (log s ++ logged "An error has occurred while switching IME mode"
                  (JS.String_replace_im (switchCmd (active st (plugin s))) im) r).
Proof.
  intros (props & -> & Hm) Hst Htgt Hex.
  unfold notify, after. rewrite (onVimModeChanged_mode exec s props _ Hm).
  simpl JS.strict_eq_string. unfold bind.
  rewrite (onInsert_dispatch exec s st Hst), Htgt.
  rewrite (execSwitch_run exec s st im r w Hst Hex). reflexivity.
Qed.

(** C4.  A notification whose [mode] is ["insert"] runs [onInsert] and
    then records the mode, whatever [previousVimMode] was.  Nothing is
    deduplicated: [n] such notifications in a row run [onInsert] [n]
    times, and when [onInsert] has a target they run the switch command
    [n] times. *)
Theorem insert_notification_always_enters_insertion :
  (∀ s modeObj,
      insert_mode modeObj →
      onVimModeChanged exec modeObj s
      = Host.bind (onInsert exec)
          (λ _, assign (set_previousVimMode (JS.Str "insert"))) s)
  ∧ (∀ n s modeObj,
        insert_mode modeObj →
        notify_all exec (replicate n modeObj) s
        = Nat.iter n
            (after (Host.bind (onInsert exec)
                      (λ _, assign (set_previousVimMode (JS.Str "insert")))))
            s)
  ∧ (∀ n s st modeObj im,
        insert_mode modeObj →
        settings (plugin s) = Some st →
        insertion_target (active st (plugin s)) (plugin s) = Some im →
        commands (log (notify_all exec (replicate n modeObj) s))
        = commands (log s)
          ++ replicate n
               (JS.String_replace_im (switchCmd (active st (plugin s))) im)).
Proof.
  assert (∀ s modeObj,
      insert_mode modeObj →
      onVimModeChanged exec modeObj s
      = Host.bind (onInsert exec)
          (λ _, assign (set_previousVimMode (JS.Str "insert"))) s) as Hone.
  { intros s modeObj (props & -> & Hm).
    now rewrite (onVimModeChanged_mode exec s props _ Hm). }
  split; [exact Hone|split].
  - intros n s modeObj Hins. revert s.
    induction n as [|n IH]; intros s; [reflexivity|].
    change (notify_all exec (replicate (S n) modeObj) s)
      with (notify_all exec (replicate n modeObj) (notify exec s modeObj)).
    rewrite IH, Nat.iter_succ_r. f_equal.
    unfold notify, after. now rewrite (Hone s modeObj Hins).
  - intros n. induction n as [|n IH]; intros s st modeObj im Hins Hst Htgt.
    + simpl. now rewrite app_nil_r.
    + change (notify_all exec (replicate (S n) modeObj) s)
        with (notify_all exec (replicate n modeObj) (notify exec s modeObj)).
      destruct (exec (JS.String_replace_im (switchCmd (active st (plugin s))) im)
                  (world s)) as [r w] eqn:Hex.
      rewrite (notify_insert s st modeObj im r w Hins Hst Htgt Hex).
      rewrite (IH _ st modeObj im Hins); [| exact Hst | exact Htgt].
      cbn [log plugin]. rewrite commands_app, commands_logged.
      rewrite <- app_assoc. reflexivity.
Qed.

(** C7, as the code has it.  The empty object is ignored: the handler
    returns at once, runs no command and changes no field. *)
Theorem empty_object_notification_is_ignored :
  ∀ s, onVimModeChanged exec (JS.Object ∅) s = (inr tt, s).
Proof. intros s. reflexivity. Qed.

(** An absent payload is not accepted: reading [mode] throws, with the
    state as it was. *)
Lemma absent_payload_throws s :
  ∃ e, onVimModeChanged exec (JS.Primitive JS.Undefined) s = (inl e, s).
Proof. eexists. reflexivity. Qed.

End Engine.

(* ===================================================================== *)
(** * Snapshot and restore of the input method *)
(* ===================================================================== *)

Section Switcher.
Context {World : Type}.
Variable exec : string → World → ExecResult * World.

Import VimImPlugin.
Implicit Types (s : Sys State World) (st : Settings).

(** [onNormal] in [main.ts]: a failed obtain command is reported and the
    switch command is run all the same, with [normalIM] as its
    argument. *)
Lemma onNormal_after_failed_obtain s st err w1 r2 w2 :
  settings (plugin s) = Some st →
  let ps := active st (plugin s) in
  exec (obtainCmd ps) (world s) = (ExecFail err, w1) →
  exec (JS.String_replace_im (switchCmd ps) (normalIM ps)) w1 = (r2, w2) →
  onNormal exec s =
    (inr tt,
     mkSys (plugin s) w2
       (log s
        ++ [Exec (obtainCmd ps) (ExecFail err);
            ShowError "An error occcurred while switching IME mode" err]
        ++ logged "An error has occurred while switching IME mode"
             (JS.String_replace_im (switchCmd ps) (normalIM ps)) r2)).
Proof.
  intros Hst ps Hob Hsw.
  exact (onNormal_run exec s st (ExecFail err) w1 r2 w2 Hst Hob Hsw).
Qed.

(** C10.  When the obtain command fails, [onNormal] leaves
    [previousIMEMode] as it was. *)
Theorem failed_obtain_keeps_previousIMEMode s st err w1 :
  settings (plugin s) = Some st →
  exec (obtainCmd (active st (plugin s))) (world s) = (ExecFail err, w1) →
  previousIMEMode (plugin (after (onNormal exec) s))
  = previousIMEMode (plugin s).
Proof.
  intros Hst Hob.
  destruct (exec (JS.String_replace_im (switchCmd (active st (plugin s)))
                    (normalIM (active st (plugin s)))) w1)
    as [r2 w2] eqn:Hsw.
  unfold after.
  now rewrite (onNormal_after_failed_obtain s st err w1 r2 w2 Hst Hob Hsw).
Qed.

(** C2, as the code has it.  When the obtain command succeeds,
    [onNormal] sets [previousIMEMode] to its standard output exactly as
    captured, whatever the field held before. *)
Theorem successful_obtain_stores_stdout s st stdout w1 :
  settings (plugin s) = Some st →
  exec (obtainCmd (active st (plugin s))) (world s) = (ExecOk stdout, w1) →
  previousIMEMode (plugin (after (onNormal exec) s)) = Some stdout.
Proof.
  intros Hst Hob.
  destruct (exec (JS.String_replace_im (switchCmd (active st (plugin s)))
                    (normalIM (active st (plugin s)))) w1)
    as [r2 w2] eqn:Hsw.
  unfold after.
  now rewrite (onNormal_run exec s st (ExecOk stdout) w1 r2 w2 Hst Hob Hsw).
Qed.

(** The three cases of [onInsert]: nothing to restore, restore the
    snapshot, or switch to the configured input method.  The command is
    the one [execSwitch] builds. *)
Lemma onInsert_cases s st :
  settings (plugin s) = Some st →
  let ps := active st (plugin s) in
  (insertionIM ps = INSERTION_MODE_PREVIOUS →
   previousIMEMode (plugin s) = None →
   onInsert exec s = (inr tt, s))
  ∧ (∀ im, insertionIM ps = INSERTION_MODE_PREVIOUS →
           previousIMEMode (plugin s) = Some im →
           onInsert exec s = execSwitch exec im s
           ∧ commands (log (after (onInsert exec) s))
             = commands (log s) ++ [JS.String_replace_im (switchCmd ps) im])
  ∧ (insertionIM ps ≠ INSERTION_MODE_PREVIOUS →
     onInsert exec s = execSwitch exec (insertionIM ps) s
     ∧ commands (log (after (onInsert exec) s))
       = commands (log s)
         ++ [JS.String_replace_im (switchCmd ps) (insertionIM ps)]).
Proof.
  intros Hst ps.
  assert (∀ im, insertion_target ps (plugin s) = Some im →
                onInsert exec s = execSwitch exec im s
                ∧ commands (log (after (onInsert exec) s))
                  = commands (log s) ++ [JS.String_replace_im (switchCmd ps) im])
    as Hrun.
  { intros im Htgt. rewrite (onInsert_dispatch exec s st Hst). fold ps.
    rewrite Htgt. split; [reflexivity|].
    destruct (exec (JS.String_replace_im (switchCmd ps) im) (world s))
      as [r w] eqn:Hex.
    unfold after. rewrite (onInsert_dispatch exec s st Hst). fold ps.
    rewrite Htgt, (execSwitch_run exec s st im r w Hst Hex).
    cbn [log snd]. now rewrite commands_app, commands_logged. }
  split; [|split].
  - intros Hprev Hnone. rewrite (onInsert_dispatch exec s st Hst). fold ps.
    unfold insertion_target. now rewrite Hprev, String.eqb_refl, Hnone.
  - intros im Hprev Hsome. apply Hrun.
    unfold insertion_target. now rewrite Hprev, String.eqb_refl.
  - intros Hne. apply Hrun. unfold insertion_target.
    apply String.eqb_neq in Hne. now rewrite Hne.
Qed.

(** Recording the vim mode afterwards does not touch what the IME
    handlers did. *)
Lemma then_record_mode (m : Host.M State World unit) (v : JS.Prim) s :
  kept_or_captured s (after m s) →
  kept_or_captured s (after (Host.bind m (λ _, assign (set_previousVimMode v))) s).
Proof.
  unfold after, bind. destruct (m s) as [[e|[]] s1]; [trivial|].
  unfold kept_or_captured. simpl. trivial.
Qed.

Lemma execSwitch_keeps s im : kept_or_captured s (after (execSwitch exec im) s).
Proof.
  left. unfold after. destruct (settings (plugin s)) as [st|] eqn:Hst.
  - destruct (exec (JS.String_replace_im (switchCmd (active st (plugin s))) im)
                (world s)) as [r w] eqn:Hex.
    now rewrite (execSwitch_run exec s st im r w Hst Hex).
  - destruct (execSwitch_undefined exec s im Hst) as [e ->]. reflexivity.
Qed.

Lemma onInsert_keeps s : kept_or_captured s (after (onInsert exec) s).
Proof.
  destruct (settings (plugin s)) as [st|] eqn:Hst.
  - unfold after. rewrite (onInsert_dispatch exec s st Hst).
    destruct (insertion_target _ _) as [im|].
    + apply execSwitch_keeps.
    + now left.
  - left. unfold after.
    destruct (onInsert_undefined exec s Hst) as [e ->]. reflexivity.
Qed.

Lemma onNormal_captures s : kept_or_captured s (after (onNormal exec) s).
Proof.
  unfold after. destruct (settings (plugin s)) as [st|] eqn:Hst.
  - destruct (exec (obtainCmd (active st (plugin s))) (world s))
      as [r1 w1] eqn:Hob.
    destruct (exec (JS.String_replace_im (switchCmd (active st (plugin s)))
                      (normalIM (active st (plugin s)))) w1)
      as [r2 w2] eqn:Hsw.
    rewrite (onNormal_run exec s st r1 w1 r2 w2 Hst Hob Hsw).
    destruct r1 as [stdout|err].
    + right. exists st, stdout. eexists. split; [assumption|].
      split; reflexivity.
    + now left.
  - left. destruct (onNormal_undefined exec s Hst) as [e ->]. reflexivity.
Qed.

Lemma onVimModeChanged_captures s modeObj :
  kept_or_captured s (after (onVimModeChanged exec modeObj) s).
Proof.
  destruct (isEmpty modeObj) eqn:Hemp.
  { left. unfold after, onVimModeChanged. now rewrite Hemp. }
  destruct (JS.get_property modeObj "mode") as [e|m] eqn:Hget.
  { left. unfold after, onVimModeChanged. now rewrite Hemp, Hget. }
  unfold after at 1.
  rewrite (onVimModeChanged_property exec s modeObj m Hemp Hget).
  destruct (JS.strict_eq_string m "insert").
  - apply then_record_mode, onInsert_keeps.
  - destruct (JS.loose_eq_string _ _).
    + apply then_record_mode, onNormal_captures.
    + now left.
Qed.

(** On a newly constructed plugin [onload] of [main.ts] throws: the
    value of [loadSettings] was dropped, so there are no settings to
    read [normalIM] from. *)
Lemma onload_of_new_plugin_throws (w : World) data os_type :
  ∃ e, onload data os_type (mkSys new w [])
       = (inl e,
          mkSys (set_isWinPlatform (String.eqb os_type "Windows_NT") new) w []).
Proof. eexists. reflexivity. Qed.

(** [onload] with settings in place. *)
Lemma onload_run s st data os_type :
  settings (plugin s) = Some st →
  onload data os_type s =
    (inr tt,
     mkSys (set_previousIMEMode
              (Some (normalIM (platform_of st (String.eqb os_type "Windows_NT"))))
              (set_isWinPlatform (String.eqb os_type "Windows_NT") (plugin s)))
           (world s) (log s)).
Proof.
  intros Hst. unfold onload, bind at 1, assign at 1.
  unfold bind at 1.
  rewrite (getPlatformSettings_defined _ st) by (simpl; exact Hst).
  unfold bind at 1, assign at 1. unfold bind at 1, this_settings.
  unfold bind, this.
  cbn [plugin world log settings set_previousIMEMode set_isWinPlatform].
  rewrite Hst. reflexivity.
Qed.

(** C6, as the code has it.  A newly constructed plugin has
    [previousIMEMode] [null].  [onload], with settings in place, assigns
    it the [normalIM] of the platform it detects, running no command.
    After that every handler either leaves it alone or, having run an
    obtain command that succeeded, assigns it that command's standard
    output. *)
Theorem previousIMEMode_assignments :
  previousIMEMode new = None
  ∧ (∀ s st data os_type,
        settings (plugin s) = Some st →
        previousIMEMode (plugin (after (onload data os_type) s))
        = Some (normalIM (platform_of st (String.eqb os_type "Windows_NT")))
        ∧ log (after (onload data os_type) s) = log s
        ∧ world (after (onload data os_type) s) = world s)
  ∧ (∀ h s, kept_or_captured s (after (run exec h) s)).
Proof.
  split; [reflexivity|split].
  - intros s st data os_type Hst. unfold after.
    rewrite (onload_run s st data os_type Hst). auto.
  - intros [| |modeObj| | |im] s; simpl run.
    + apply onNormal_captures.
    + unfold onFocus, after, bind, this.
      destruct (negb _); [apply onNormal_captures | now left].
    + apply onVimModeChanged_captures.
    + apply onInsert_keeps.
    + apply onNormal_captures.
    + apply execSwitch_keeps.
Qed.

End Switcher.

(* ===================================================================== *)
(** * [switchToNormalIME] before the rewrite *)
(* ===================================================================== *)

Section LegacyFacts.
Context {World : Type}.
Variable exec : string → World → ExecResult * World.

Implicit Types (s : Sys Legacy.State World).

(** In [part_000] the two commands share one [try] block: when the
    obtain command fails, the error is reported and the switch command
    is not run. *)
Lemma switchToNormalIME_after_failed_obtain s st err w1 :
  Legacy.settings (plugin s) = Some st →
  exec (if Legacy.isWinPlatform (plugin s)
        then Legacy.windowsObtainCmd st else Legacy.obtainCmd st) (world s)
    = (ExecFail err, w1) →
  Legacy.switchToNormalIME exec s =
    (inr tt,
     mkSys (plugin s) w1
       (log s
        ++ [Exec (if Legacy.isWinPlatform (plugin s)
                  then Legacy.windowsObtainCmd st else Legacy.obtainCmd st)
              (ExecFail err);
            ShowError "An error occcurred while switching IME mode" err])).
Proof.
  intros Hst Hob. unfold Legacy.switchToNormalIME, bind at 1, this at 1.
  unfold bind at 1, Legacy.this_settings, bind at 1, this at 1. rewrite Hst.
  unfold ret at 1. unfold bind at 1, await_exec at 1. rewrite Hob.
  unfold showError. simpl. now rewrite <- app_assoc.
Qed.

End LegacyFacts.

(* ===================================================================== *)
(** * Settings *)
(* ===================================================================== *)

(** C9.  Flattening nested settings as [saveSettings] does, storing the
    result, and rebuilding them as [loadSettings] does gives back the
    same settings, field for field. *)
Theorem settings_round_trip (s : Settings) :
  loadSettings (Some (Raw.saved (saveSettings_raw s))) = s.
Proof. destruct s as [focus [a b c d] [e f g h]]. reflexivity. Qed.

(* ===================================================================== *)
(** * The statements at work on concrete configurations *)
(* ===================================================================== *)

Section Examples.
Import VimImPlugin Sample.

(** normal, visual, normal from a fresh start: nothing is run. *)
Lemma non_insert_notification_witness :
  log (notify_all (shell pinyin_active) [normal; visual; normal]
         (start (plugin_with config None (JS.Str ""))))
  = [].
Proof.
  refine (proj1 (proj2 (proj2 (proj2
            (non_insert_notification_switches_only_after_insert
               (shell pinyin_active))))
            [normal; visual; normal]
            (start (plugin_with config None (JS.Str ""))) _ _)).
  - discriminate.
  - repeat constructor.
    + exists {[ "mode" := JS.Str "normal" ]}, (JS.Str "normal").
      split; [reflexivity | split; [vm_compute; reflexivity | discriminate]].
    + exists (<[ "subMode" := JS.Str "linewise" ]> {[ "mode" := JS.Str "visual" ]}),
        (JS.Str "visual").
      split; [reflexivity | split; [vm_compute; reflexivity | discriminate]].
    + exists {[ "mode" := JS.Str "normal" ]}, (JS.Str "normal").
      split; [reflexivity | split; [vm_compute; reflexivity | discriminate]].
Defined.

(** Three ["insert"] notifications in a row restore the snapshot three
    times. *)
Lemma insert_notification_witness :
  commands (log (notify_all (shell pinyin_active) (replicate 3 insert)
                   (start (plugin_with config (Some "pinyin") (JS.Str "")))))
  = ["im-select pinyin"; "im-select pinyin"; "im-select pinyin"].
Proof.
  apply (proj2 (proj2 (insert_notification_always_enters_insertion
                         (shell pinyin_active)))
           3 (start (plugin_with config (Some "pinyin") (JS.Str "")))
           config insert "pinyin").
  - exists {[ "mode" := JS.Str "insert" ]}. split; [reflexivity|].
    vm_compute; reflexivity.
  - reflexivity.
  - reflexivity.
Defined.

(** C7 as stated fails: a payload with properties but no [mode], arriving
    after insert mode, is not ignored.  It runs [onNormal], which takes a
    snapshot and switches, and [previousVimMode] becomes [undefined]. *)
Lemma notification_without_mode_is_not_ignored :
  let modeObj := no_mode in
  let s := start (plugin_with config None (JS.Str "insert")) in
  let s' := notify (shell pinyin_active) s modeObj in
  JS.get_property modeObj "mode" = inr JS.Undefined
  ∧ commands (log s') = ["im-select"; "im-select com.apple.keylayout.ABC"]
  ∧ previousVimMode (plugin s') = JS.Undefined
  ∧ previousIMEMode (plugin s') = Some ("pinyin" +:+ LF)
  ∧ ¬ (commands (log s') = commands (log s)
       ∧ previousVimMode (plugin s') = previousVimMode (plugin s)
       ∧ previousIMEMode (plugin s') = previousIMEMode (plugin s)).
Proof.
  repeat split; try (vm_compute; reflexivity).
  intros (Hcmd & _). vm_compute in Hcmd. discriminate.
Qed.

Lemma failed_obtain_keeps_previousIMEMode_witness :
  let s := start (plugin_with config (Some "pinyin") (JS.Str "insert")) in
  settings (plugin s) = Some config
  ∧ shell obtain_broken (obtainCmd (active config (plugin s))) (world s)
    = (ExecFail "ENOENT", tt)
  ∧ previousIMEMode (plugin (after (onNormal (shell obtain_broken)) s))
    = Some "pinyin".
Proof.
  intros s. split; [reflexivity|split; [reflexivity|]].
  apply (failed_obtain_keeps_previousIMEMode (shell obtain_broken) s config
           "ENOENT" tt); reflexivity.
Defined.

Lemma successful_obtain_stores_stdout_witness :
  let s := start (plugin_with config (Some "kana") (JS.Str "insert")) in
  settings (plugin s) = Some config
  ∧ shell pinyin_active (obtainCmd (active config (plugin s))) (world s)
    = (ExecOk ("pinyin" +:+ LF), tt)
  ∧ previousIMEMode (plugin (after (onNormal (shell pinyin_active)) s))
    = Some ("pinyin" +:+ LF).
Proof.
  intros s. split; [reflexivity|split; [reflexivity|]].
  apply (successful_obtain_stores_stdout (shell pinyin_active) s config
           ("pinyin" +:+ LF) tt); reflexivity.
Defined.

(** C2 as stated fails: the line feed that ends the output of the obtain
    command is stored with it. *)
Lemma stored_stdout_is_not_trimmed :
  let s := start (plugin_with config None (JS.Str "insert")) in
  let s' := after (onNormal (shell pinyin_active)) s in
  log s' = [Exec "im-select" (ExecOk ("pinyin" +:+ LF));
            Exec "im-select com.apple.keylayout.ABC" (ExecOk "")]
  ∧ previousIMEMode (plugin s') = Some ("pinyin" +:+ LF)
  ∧ Spec.trimmed ("pinyin" +:+ LF) = "pinyin"
  ∧ previousIMEMode (plugin s') ≠ Some (Spec.trimmed ("pinyin" +:+ LF)).
Proof.
  repeat split; try (vm_compute; reflexivity).
  vm_compute. discriminate.
Qed.

(** C6 as stated fails: [onload] assigns [previousIMEMode] a string, and
    no command has run by then.  In [main.ts] this needs the settings in
    place; in [part_000], where [loadSettings] stores them, it happens on
    a newly constructed plugin. *)
Lemma onload_assigns_previousIMEMode :
  (let s := start (plugin_with config None (JS.Str "")) in
   let s' := after (onload None "Darwin") s in
   previousIMEMode (plugin s) = None
   ∧ previousIMEMode (plugin s') = Some "com.apple.keylayout.ABC"
   ∧ log s' = [])
  ∧ (let t := legacy_start Legacy.new in
     let t' := after (Legacy.onload None "Darwin") t in
     Legacy.previousIMEMode (plugin t) = None
     ∧ Legacy.previousIMEMode (plugin t') = Some ""
     ∧ log t' = []).
Proof. repeat split. Qed.

Lemma previousIMEMode_assignments_witness :
  let s := start (plugin_with config None (JS.Str "")) in
  settings (plugin s) = Some config
  ∧ previousIMEMode (plugin (after (onload None "Windows_NT") s)) = Some "1033".
Proof.
  intros s. split; [reflexivity|].
  apply (proj1 (proj1 (proj2 (previousIMEMode_assignments (shell pinyin_active)))
                  s config None "Windows_NT" eq_refl)).
Defined.

(** C1: with the obtain command broken, [onNormal] of [main.ts] reports
    the error and goes on to switch, while [switchToNormalIME] of
    [part_000] reports the error and runs nothing more. *)
Theorem legacy_failed_obtain_skips_switch :
  log (after (onNormal (shell obtain_broken))
         (start (plugin_with config None (JS.Str "insert"))))
  = [Exec "im-select" (ExecFail "ENOENT");
     ShowError "An error occcurred while switching IME mode" "ENOENT";
     Exec "im-select com.apple.keylayout.ABC" (ExecOk "")]
  ∧ log (after (Legacy.switchToNormalIME (shell obtain_broken))
           (legacy_start
              (Legacy.mkState (Some legacy_config) None (JS.Str "insert") false)))
    = [Exec "im-select" (ExecFail "ENOENT");
       ShowError "An error occcurred while switching IME mode" "ENOENT"].
Proof. split; reflexivity. Qed.

(** C8: the target is used as a replacement template, not as text.  The
    example of the specification comes out as expected, but [$&] in the
    target brings the token back, where the literal replacement of the
    first occurrence would give [im-select $&]. *)
Theorem execSwitch_expands_dollar_patterns :
  JS.String_replace_im "im-select {im}" "com.apple.inputmethod.SCIM.ITABC"
  = "im-select com.apple.inputmethod.SCIM.ITABC"
  ∧ commands (log (after (execSwitch (shell pinyin_active) "$&")
                     (start (plugin_with config None (JS.Str "")))))
    = ["im-select {im}"]
  ∧ Spec.replaces_first_occurrence JS.im_token "im-select {im}" "$&"
      "im-select $&"
  ∧ ¬ Spec.replaces_first_occurrence JS.im_token "im-select {im}" "$&"
        (JS.String_replace_im "im-select {im}" "$&").
Proof.
  assert (Spec.replaces_first_occurrence JS.im_token "im-select {im}" "$&"
            "im-select $&") as Hgood.
  { left. exists "im-select ", "". split; [reflexivity|split; [|reflexivity]].
    apply (regexp_exec_leftmost JS.im_token "im-select {im}" "im-select " "").
    reflexivity. }
  split; [reflexivity|split; [reflexivity|split; [exact Hgood|]]].
  intros Hbad.
  pose proof (replaces_first_occurrence_functional _ _ _ _ _ Hbad Hgood) as Heq.
  vm_compute in Heq. discriminate.
Qed.

(** C5: [onInsert] hands the configured input method to [execSwitch],
    which expands [$$] in it: the command run is [im-select A$B], not
    [im-select A$$B]. *)
Theorem onInsert_target_is_expanded :
  let s := start (plugin_with dollars None (JS.Str "")) in
  insertionIM (active dollars (plugin s)) = "A$$B"
  ∧ insertionIM (active dollars (plugin s)) ≠ INSERTION_MODE_PREVIOUS
  ∧ commands (log (after (onInsert (shell pinyin_active)) s))
    = ["im-select A$B"].
Proof. repeat split. discriminate. Qed.

End Examples.

(* ===================================================================== *)
(** * Further properties of the substitution and of the settings *)
(* ===================================================================== *)

Section Substitution.
Context {World : Type}.
Variable exec : string → World → ExecResult * World.

Import VimImPlugin.
Implicit Types (s : Sys State World) (st : Settings).

Lemma regexp_exec_absent (tok s : string) :
  (∀ n, ¬ Spec.occurs_at tok s n) → JS.regexp_exec tok s = None.
Proof.
  intros Hno. destruct (JS.regexp_exec tok s) as [[before after]|] eqn:E;
    [|reflexivity].
  destruct (Hno (String.length before)).
  exists before, after. split; [now apply regexp_exec_Some | reflexivity].
Qed.

(** X1.  A switch command that does not contain [{im}] is run exactly as
    it is written, whatever the target, dollar signs included. *)
Theorem switch_command_without_token_runs_unchanged s st im :
  settings (plugin s) = Some st →
  (∀ n, ¬ Spec.occurs_at JS.im_token (switchCmd (active st (plugin s))) n) →
  commands (log (after (execSwitch exec im) s))
  = commands (log s) ++ [switchCmd (active st (plugin s))].
Proof.
  intros Hst Hno.
  destruct (exec (JS.String_replace_im (switchCmd (active st (plugin s))) im)
              (world s)) as [r w] eqn:Hex.
  unfold after. rewrite (execSwitch_run exec s st im r w Hst Hex).
  cbn [log snd]. rewrite commands_app, commands_logged.
  now rewrite (String_replace_im_no_token _ im (regexp_exec_absent _ _ Hno)).
Qed.

(** X2.  When the target has no dollar sign, the text before the first
    [{im}] and everything after it, further occurrences of [{im}]
    included, are kept and the target stands in between. *)
Theorem first_token_replaced_rest_kept (pre post im : string) :
  Spec.dollar_free im = true →
  (∀ n, n < String.length pre →
        ¬ Spec.occurs_at JS.im_token (pre +:+ JS.im_token +:+ post) n) →
  JS.String_replace_im (pre +:+ JS.im_token +:+ post) im = pre +:+ im +:+ post.
Proof.
  intros Him Hfirst.
  apply (replaces_first_occurrence_functional JS.im_token
           (pre +:+ JS.im_token +:+ post) im).
  - now apply String_replace_im_literal.
  - left. exists pre, post. auto.
Qed.

End Substitution.

Section SettingsFacts.

(** X3.  The other way round from C9: rebuilding nested settings from a
    stored flat record and flattening them again gives the flat record
    back, so the two shapes carry the same nine values. *)
Theorem raw_settings_round_trip (r : Raw.RawSettings) :
  saveSettings_raw (loadSettings (Some (Raw.saved r))) = r.
Proof. destruct r. reflexivity. Qed.

(** X4.  [isEmpty] holds of the object without keys and of nothing else:
    not of [undefined], [null] or a string, and not of an object with any
    key, whatever the key is. *)
Theorem isEmpty_only_for_object_without_keys (obj : JS.Value) :
  VimImPlugin.isEmpty obj = true
  ↔ ∃ props, obj = JS.Object props ∧ ∀ k, props !! k = None.
Proof.
  rewrite isEmpty_true. split.
  - intros ->. exists ∅. split; [reflexivity|]. intros k. apply lookup_empty.
  - intros (props & -> & Hk). f_equal. apply map_empty. exact Hk.
Qed.

End SettingsFacts.

(* ===================================================================== *)
(** * What the handlers of [main.ts] keep and what they never do *)
(* ===================================================================== *)

Section Invariants.
Context {World : Type}.
Variable exec : string → World → ExecResult * World.

Import VimImPlugin.
Implicit Types (s : Sys State World) (st : Settings) (h : Handler).

Lemma after_record_mode (m : Host.M State World unit) (v : JS.Prim) s :
  after (Host.bind m (λ _, assign (set_previousVimMode v))) s
  = match m s with
    | (inl _, s1) => s1
    | (inr _, s1) => mkSys (set_previousVimMode v (plugin s1)) (world s1) (log s1)
    end.
Proof. unfold after, bind. destruct (m s) as [[e|[]] s1]; reflexivity. Qed.

Lemma execSwitch_plugin s im :
  plugin (after (execSwitch exec im) s) = plugin s.
Proof.
  unfold after. destruct (settings (plugin s)) as [st|] eqn:Hst.
  - destruct (exec (JS.String_replace_im (switchCmd (active st (plugin s))) im)
                (world s)) as [r w] eqn:Hex.
    now rewrite (execSwitch_run exec s st im r w Hst Hex).
  - destruct (execSwitch_undefined exec s im Hst) as [e ->]. reflexivity.
Qed.

Lemma onInsert_plugin s : plugin (after (onInsert exec) s) = plugin s.
Proof.
  destruct (settings (plugin s)) as [st|] eqn:Hst.
  - unfold after. rewrite (onInsert_dispatch exec s st Hst).
    destruct (insertion_target _ _) as [im|]; [|reflexivity].
    apply execSwitch_plugin.
  - unfold after. destruct (onInsert_undefined exec s Hst) as [e ->]. reflexivity.
Qed.

Lemma onNormal_plugin s :
  settings (plugin (after (onNormal exec) s)) = settings (plugin s)
  ∧ isWinPlatform (plugin (after (onNormal exec) s)) = isWinPlatform (plugin s)
  ∧ previousVimMode (plugin (after (onNormal exec) s)) = previousVimMode (plugin s).
Proof.
  unfold after. destruct (settings (plugin s)) as [st|] eqn:Hst.
  - destruct (exec (obtainCmd (active st (plugin s))) (world s))
      as [r1 w1] eqn:Hob.
    destruct (exec (JS.String_replace_im (switchCmd (active st (plugin s)))
                      (normalIM (active st (plugin s)))) w1)
      as [r2 w2] eqn:Hsw.
    rewrite (onNormal_run exec s st r1 w1 r2 w2 Hst Hob Hsw).
    destruct r1; simpl; auto.
  - destruct (onNormal_undefined exec s Hst) as [e ->]. simpl. auto.
Qed.

Lemma onVimModeChanged_plugin s modeObj :
  settings (plugin (after (onVimModeChanged exec modeObj) s)) = settings (plugin s)
  ∧ isWinPlatform (plugin (after (onVimModeChanged exec modeObj) s))
    = isWinPlatform (plugin s).
Proof.
  destruct (isEmpty modeObj) eqn:Hemp.
  { unfold after, onVimModeChanged. rewrite Hemp. auto. }
  destruct (JS.get_property modeObj "mode") as [e|m] eqn:Hget.
  { unfold after, onVimModeChanged. rewrite Hemp, Hget. auto. }
  unfold after at 1 2.
  rewrite (onVimModeChanged_property exec s modeObj m Hemp Hget).
  destruct (JS.strict_eq_string m "insert").
  - fold (after (Host.bind (onInsert exec)
                   (λ _, assign (set_previousVimMode m))) s).
    rewrite after_record_mode.
    pose proof (onInsert_plugin s) as Hp. unfold after in Hp.
    destruct (onInsert exec s) as [[e|[]] s1]; simpl in *; now rewrite Hp.
  - destruct (JS.loose_eq_string _ _).
    + fold (after (Host.bind (onNormal exec)
                     (λ _, assign (set_previousVimMode m))) s).
      rewrite after_record_mode.
      destruct (onNormal_plugin s) as (H1 & H2 & _). unfold after in H1, H2.
      destruct (onNormal exec s) as [[e|[]] s1]; simpl in *; auto.
    + simpl. auto.
Qed.

Lemma run_keeps_settings h s :
  settings (plugin (after (run exec h) s)) = settings (plugin s).
Proof.
  destruct h as [| |modeObj| | |im]; simpl run.
  - apply onNormal_plugin.
  - unfold onFocus, after, bind, this.
    destruct (negb _); [apply onNormal_plugin | reflexivity].
  - apply onVimModeChanged_plugin.
  - now rewrite onInsert_plugin.
  - apply onNormal_plugin.
  - now rewrite execSwitch_plugin.
Qed.

(** With settings in place the three IME operations return. *)
Lemma onNormal_returns s st :
  settings (plugin s) = Some st → (onNormal exec s).1 = inr tt.
Proof.
  intros Hst.
  destruct (exec (obtainCmd (active st (plugin s))) (world s))
    as [r1 w1] eqn:Hob.
  destruct (exec (JS.String_replace_im (switchCmd (active st (plugin s)))
                    (normalIM (active st (plugin s)))) w1)
    as [r2 w2] eqn:Hsw.
  now rewrite (onNormal_run exec s st r1 w1 r2 w2 Hst Hob Hsw).
Qed.

Lemma execSwitch_returns s st im :
  settings (plugin s) = Some st → (execSwitch exec im s).1 = inr tt.
Proof.
  intros Hst.
  destruct (exec (JS.String_replace_im (switchCmd (active st (plugin s))) im)
              (world s)) as [r w] eqn:Hex.
  now rewrite (execSwitch_run exec s st im r w Hst Hex).
Qed.

Lemma onInsert_returns s st :
  settings (plugin s) = Some st → (onInsert exec s).1 = inr tt.
Proof.
  intros Hst. rewrite (onInsert_dispatch exec s st Hst).
  destruct (insertion_target _ _); [now apply execSwitch_returns with st | reflexivity].
Qed.

(** X5.  No handler touches the settings or the detected platform, and
    only [onVimModeChanged] ever changes [previousVimMode]: file-open,
    focus and direct calls of [onInsert], [onNormal] and [execSwitch]
    leave it as it is. *)
Theorem handlers_keep_configuration h s :
  settings (plugin (after (run exec h) s)) = settings (plugin s)
  ∧ isWinPlatform (plugin (after (run exec h) s)) = isWinPlatform (plugin s)
  ∧ match h with
    | VimModeChange _ => True
    | _ => previousVimMode (plugin (after (run exec h) s))
           = previousVimMode (plugin s)
    end.
Proof.
  destruct h as [| |modeObj| | |im]; simpl run.
  - apply onNormal_plugin.
  - unfold onFocus, after, bind, this.
    destruct (negb _); [apply onNormal_plugin | simpl; auto].
  - destruct (onVimModeChanged_plugin s modeObj). auto.
  - rewrite onInsert_plugin. auto.
  - apply onNormal_plugin.
  - rewrite execSwitch_plugin. auto.
Qed.

(** X6.  With settings in place no handler throws, whatever the commands
    answer: a failed command is reported and the handler returns.  The
    one exception is a notification that is [undefined] or [null]. *)
Theorem handlers_do_not_throw h s st :
  settings (plugin s) = Some st →
  readable h →
  (run exec h s).1 = inr tt.
Proof.
  intros Hst Hread.
  pose proof (onNormal_returns s st Hst) as HN.
  pose proof (λ im, execSwitch_returns s st im Hst) as HS.
  pose proof (onInsert_returns s st Hst) as HI.
  destruct h as [| |modeObj| | |im]; simpl run; try assumption.
  - unfold onFocus, bind, this. destruct (negb _); [assumption|reflexivity].
  - destruct (isEmpty modeObj) eqn:Hemp.
    { unfold onVimModeChanged. now rewrite Hemp. }
    assert (∃ m, JS.get_property modeObj "mode" = inr m) as [m Hget].
    { destruct Hread as [Hu Hn].
      destruct modeObj as [[| |x]|props]; simpl; eauto; congruence. }
    rewrite (onVimModeChanged_property exec s modeObj m Hemp Hget).
    destruct (JS.strict_eq_string m "insert").
    + unfold bind. destruct (onInsert exec s) as [[e|[]] s1];
        [discriminate HI | reflexivity].
    + destruct (JS.loose_eq_string _ _); [|reflexivity].
      unfold bind. destruct (onNormal exec s) as [[e|[]] s1];
        [discriminate HN | reflexivity].
  - apply HS.
Qed.

(** Without settings a handler runs nothing. *)
Lemma run_undefined h s :
  settings (plugin s) = None →
  log (after (run exec h) s) = log s
  ∧ world (after (run exec h) s) = world s
  ∧ previousIMEMode (plugin (after (run exec h) s)) = previousIMEMode (plugin s).
Proof.
  intros Hst.
  assert (after (onNormal exec) s = s) as HN.
  { unfold after. now destruct (onNormal_undefined exec s Hst) as [e ->]. }
  assert (after (onInsert exec) s = s) as HI.
  { unfold after. now destruct (onInsert_undefined exec s Hst) as [e ->]. }
  destruct h as [| |modeObj| | |im]; simpl run.
  - unfold onFileOpen. rewrite HN. auto.
  - unfold onFocus, after, bind, this.
    destruct (negb _); [destruct (onNormal_undefined exec s Hst) as [e ->]|];
      simpl; auto.
  - destruct (isEmpty modeObj) eqn:Hemp.
    { unfold after, onVimModeChanged. rewrite Hemp. auto. }
    destruct (JS.get_property modeObj "mode") as [e|m] eqn:Hget.
    { unfold after, onVimModeChanged. rewrite Hemp, Hget. auto. }
    unfold after at 1 2 3.
    rewrite (onVimModeChanged_property exec s modeObj m Hemp Hget).
    destruct (JS.strict_eq_string m "insert").
    + unfold bind. destruct (onInsert_undefined exec s Hst) as [e ->]. auto.
    + destruct (JS.loose_eq_string _ _).
      * unfold bind. destruct (onNormal_undefined exec s Hst) as [e ->]. auto.
      * simpl. auto.
  - rewrite HI. auto.
  - rewrite HN. auto.
  - unfold after. destruct (execSwitch_undefined exec s im Hst) as [e ->]. auto.
Qed.

(** X7.  In [main.ts] nothing ever assigns [this.settings]: [onload]
    drops what [loadSettings] returns.  So from a newly constructed
    plugin, [onload] followed by any handlers in any order runs no
    command and shows no error, the settings stay undefined and
    [previousIMEMode] stays [null]. *)
Theorem new_plugin_never_runs_a_command
    (w : World) (data : option Raw.Data) (os_type : string) (hs : list Handler) :
  let s' := run_all exec hs (after (onload data os_type) (mkSys new w [])) in
  log s' = [] ∧ world s' = w
  ∧ settings (plugin s') = None ∧ previousIMEMode (plugin s') = None.
Proof.
  assert (∀ hs s, settings (plugin s) = None →
            log (run_all exec hs s) = log s ∧ world (run_all exec hs s) = world s
            ∧ settings (plugin (run_all exec hs s)) = None
            ∧ previousIMEMode (plugin (run_all exec hs s))
              = previousIMEMode (plugin s)) as Hall.
  { clear hs. intros hs. induction hs as [|h hs IH]; intros s Hst.
    - simpl. auto.
    - change (run_all exec (h :: hs) s)
        with (run_all exec hs (after (run exec h) s)).
      destruct (run_undefined h s Hst) as (Hl & Hw & Hp).
      pose proof (run_keeps_settings h s) as Hs.
      destruct (IH (after (run exec h) s)) as (Hl' & Hw' & Hs' & Hp');
        [congruence|].
      rewrite Hl', Hw', Hs', Hp'. auto. }
  intros s'. subst s'.
  destruct (Hall hs (after (onload data os_type) (mkSys new w [])) eq_refl)
    as (Hl & Hw & Hs & Hp).
  rewrite Hl, Hw, Hs, Hp. auto.
Qed.

End Invariants.

(* ===================================================================== *)
(** * Commands run by sequences of events *)
(* ===================================================================== *)

Section Sequences.
Context {World : Type}.
Variable exec : string → World → ExecResult * World.

Import VimImPlugin.
Implicit Types (s : Sys State World) (st : Settings) (h : Handler).

Lemma reported_from_app (pending : option string) (l1 l2 : list Event) :
  reported_from pending l1 = true →
  reported_from pending (l1 ++ l2) = reported_from None l2.
Proof.
  revert pending. induction l1 as [|e l1 IH]; intros pending H.
  - destruct pending; [discriminate|reflexivity].
  - destruct e as [cmd [out|err]|msg err'], pending as [err0|];
      simpl in *; try discriminate.
    + now apply IH.
    + now apply IH.
    + apply andb_true_iff in H as [-> H]. now apply IH.
Qed.

Lemma reported_logged (msg cmd : string) (r : ExecResult) :
  every_failure_reported (logged msg cmd r) = true.
Proof.
  destruct r as [out|err]; unfold every_failure_reported; simpl;
    [reflexivity|]. now rewrite String.eqb_refl.
Qed.

Lemma reported_extend (l1 l2 : list Event) :
  every_failure_reported l1 = true →
  every_failure_reported l2 = true →
  every_failure_reported (l1 ++ l2) = true.
Proof.
  unfold every_failure_reported. intros H1 H2.
  now rewrite (reported_from_app None l1 l2 H1).
Qed.

Lemma execSwitch_reported s im :
  every_failure_reported (log s) = true →
  every_failure_reported (log (after (execSwitch exec im) s)) = true.
Proof.
  intros H. unfold after. destruct (settings (plugin s)) as [st|] eqn:Hst.
  - destruct (exec (JS.String_replace_im (switchCmd (active st (plugin s))) im)
                (world s)) as [r w] eqn:Hex.
    rewrite (execSwitch_run exec s st im r w Hst Hex). cbn [log snd].
    apply reported_extend; [assumption | apply reported_logged].
  - now destruct (execSwitch_undefined exec s im Hst) as [e ->].
Qed.

Lemma onInsert_reported s :
  every_failure_reported (log s) = true →
  every_failure_reported (log (after (onInsert exec) s)) = true.
Proof.
  intros H. destruct (settings (plugin s)) as [st|] eqn:Hst.
  - unfold after. rewrite (onInsert_dispatch exec s st Hst).
    destruct (insertion_target _ _) as [im|]; [|assumption].
    now apply execSwitch_reported.
  - unfold after. now destruct (onInsert_undefined exec s Hst) as [e ->].
Qed.

Lemma onNormal_reported s :
  every_failure_reported (log s) = true →
  every_failure_reported (log (after (onNormal exec) s)) = true.
Proof.
  intros H. unfold after. destruct (settings (plugin s)) as [st|] eqn:Hst.
  - destruct (exec (obtainCmd (active st (plugin s))) (world s))
      as [r1 w1] eqn:Hob.
    destruct (exec (JS.String_replace_im (switchCmd (active st (plugin s)))
                      (normalIM (active st (plugin s)))) w1)
      as [r2 w2] eqn:Hsw.
    rewrite (onNormal_run exec s st r1 w1 r2 w2 Hst Hob Hsw). cbn [log snd].
    repeat apply reported_extend; try assumption; apply reported_logged.
  - now destruct (onNormal_undefined exec s Hst) as [e ->].
Qed.

(** X8.  Whatever the commands answer, the log stays well reported under
    every handler: each failed command is followed at once by exactly one
    error shown with that command's error, and no error is shown for
    anything else. *)
Theorem every_failure_is_reported h s :
  every_failure_reported (log s) = true →
  every_failure_reported (log (after (run exec h) s)) = true.
Proof.
  intros H. destruct h as [| |modeObj| | |im]; simpl run.
  - now apply onNormal_reported.
  - unfold onFocus, after, bind, this.
    destruct (negb _); [now apply onNormal_reported | assumption].
  - destruct (isEmpty modeObj) eqn:Hemp.
    { unfold after, onVimModeChanged. now rewrite Hemp. }
    destruct (JS.get_property modeObj "mode") as [e|m] eqn:Hget.
    { unfold after, onVimModeChanged. now rewrite Hemp, Hget. }
    unfold after.
    rewrite (onVimModeChanged_property exec s modeObj m Hemp Hget).
    destruct (JS.strict_eq_string m "insert").
    + pose proof (onInsert_reported s H) as Hi. unfold after in Hi.
      unfold bind. now destruct (onInsert exec s) as [[e|[]] s1].
    + destruct (JS.loose_eq_string _ _); [|assumption].
      pose proof (onNormal_reported s H) as Hn. unfold after in Hn.
      unfold bind. now destruct (onNormal exec s) as [[e|[]] s1].
  - now apply onInsert_reported.
  - now apply onNormal_reported.
  - now apply execSwitch_reported.
Qed.

(** X9.  With settings in place [onNormal] runs exactly two commands, the
    obtain command and then the switch command for [normalIM], whether
    either of them fails or not. *)
Theorem onNormal_runs_obtain_then_switch s st :
  settings (plugin s) = Some st →
  commands (log (after (onNormal exec) s))
  = commands (log s)
    ++ [obtainCmd (active st (plugin s));
        JS.String_replace_im (switchCmd (active st (plugin s)))
          (normalIM (active st (plugin s)))].
Proof.
  intros Hst.
  destruct (exec (obtainCmd (active st (plugin s))) (world s))
    as [r1 w1] eqn:Hob.
  destruct (exec (JS.String_replace_im (switchCmd (active st (plugin s)))
                    (normalIM (active st (plugin s)))) w1)
    as [r2 w2] eqn:Hsw.
  unfold after. rewrite (onNormal_run exec s st r1 w1 r2 w2 Hst Hob Hsw).
  cbn [log snd]. now rewrite !commands_app, !commands_logged.
Qed.

(** X10.  With settings in place, a notification that is not the empty
    object and whose [mode] can be read always ends with
    [previousVimMode] set to that [mode] ([undefined] when the property is
    missing), also when the commands it ran failed. *)
Theorem previousVimMode_records_the_notification s st modeObj m :
  settings (plugin s) = Some st →
  isEmpty modeObj = false →
  JS.get_property modeObj "mode" = inr m →
  previousVimMode (plugin (notify exec s modeObj)) = m.
Proof.
  intros Hst Hemp Hget.
  pose proof (onInsert_returns exec s st Hst) as HI.
  pose proof (onNormal_returns exec s st Hst) as HN.
  unfold notify, after.
  rewrite (onVimModeChanged_property exec s modeObj m Hemp Hget).
  destruct (JS.strict_eq_string m "insert").
  - unfold bind. destruct (onInsert exec s) as [[e|[]] s1];
      [discriminate HI | reflexivity].
  - destruct (JS.loose_eq_string _ _); [|reflexivity].
    unfold bind. destruct (onNormal exec s) as [[e|[]] s1];
      [discriminate HN | reflexivity].
Qed.

End Sequences.

(* ===================================================================== *)
(** * Leaving and entering insert mode *)
(* ===================================================================== *)

Section Transitions.
Context {World : Type}.
Variable exec : string → World → ExecResult * World.

Import VimImPlugin.
Implicit Types (s : Sys State World) (st : Settings).





(** X14.  [onload] picks the platform from [os.type()] alone: the Windows
    record for ["Windows_NT"], the default record for any other answer.
    The next [onNormal] runs that record's obtain command and switches to
    that record's [normalIM]. *)
Theorem onload_selects_the_platform s st data os_type :
  settings (plugin s) = Some st →
  let ps := if String.eqb os_type "Windows_NT"
            then windowsPlatformSettings st
            else defaultPlatformSettings st in
  commands (log (after (onNormal exec) (after (onload data os_type) s)))
  = commands (log s)
    ++ [obtainCmd ps; JS.String_replace_im (switchCmd ps) (normalIM ps)].
Proof.
  intros Hst ps. unfold after at 2. rewrite (onload_run s st data os_type Hst).
  cbn [snd].
  set (s1 := mkSys _ _ _).
  assert (settings (plugin s1) = Some st) as Hst1 by exact Hst.
  assert (active st (plugin s1) = ps) as Hps by reflexivity.
  destruct (exec (obtainCmd (active st (plugin s1))) (world s1))
    as [r1 w1] eqn:Hob.
  destruct (exec (JS.String_replace_im (switchCmd (active st (plugin s1)))
                    (normalIM (active st (plugin s1)))) w1)
    as [r2 w2] eqn:Hsw.
  unfold after. rewrite (onNormal_run exec s1 st r1 w1 r2 w2 Hst1 Hob Hsw).
  cbn [log snd]. rewrite !commands_app, !commands_logged, Hps. reflexivity.
Qed.

(** X15.  After [onload] the case "nothing to restore" of [onInsert]
    cannot arise: [previousIMEMode] holds [normalIM].  So the first
    [onInsert] after [onload] always runs one command; with the
    [_PREVIOUS_] sentinel it switches to [normalIM]. *)
Theorem first_insert_after_onload_runs_a_command s st data os_type :
  settings (plugin s) = Some st →
  let ps := platform_of st (String.eqb os_type "Windows_NT") in
  commands (log (after (onInsert exec) (after (onload data os_type) s)))
  = commands (log s)
    ++ [JS.String_replace_im (switchCmd ps)
          (if String.eqb (insertionIM ps) INSERTION_MODE_PREVIOUS
           then normalIM ps else insertionIM ps)].
Proof.
  intros Hst ps. unfold after at 2. rewrite (onload_run s st data os_type Hst).
  cbn [snd].
  set (s1 := mkSys _ _ _).
  assert (settings (plugin s1) = Some st) as Hst1 by exact Hst.
  assert (insertion_target (active st (plugin s1)) (plugin s1)
          = Some (if String.eqb (insertionIM ps) INSERTION_MODE_PREVIOUS
                  then normalIM ps else insertionIM ps)) as Htgt.
  { unfold insertion_target. change (active st (plugin s1)) with ps.
    now destruct (String.eqb (insertionIM ps) INSERTION_MODE_PREVIOUS). }
  unfold after. rewrite (onInsert_dispatch exec s1 st Hst1), Htgt.
  destruct (exec (JS.String_replace_im (switchCmd (active st (plugin s1)))
                    (if String.eqb (insertionIM ps) INSERTION_MODE_PREVIOUS
                     then normalIM ps else insertionIM ps)) (world s1))
    as [r w] eqn:Hex.
  rewrite (execSwitch_run exec s1 st _ r w Hst1 Hex).
  cbn [log snd]. now rewrite commands_app, commands_logged.
Qed.

End Transitions.

(* ===================================================================== *)
(** * [part_000]: entering and leaving insert mode, and the rewrite *)
(* ===================================================================== *)

Section LegacySwitcher.
Context {World : Type}.
Variable exec : string → World → ExecResult * World.

Implicit Types (s : Sys Legacy.State World) (st : Legacy.VimImPluginSettings).

(** The switch command of the platform in force, with its target. *)
Lemma switchToPreviousIME_run s st previous r w :
  Legacy.settings (plugin s) = Some st →
  Legacy.previousIMEMode (plugin s) = Some previous →
  let cmd := if Legacy.isWinPlatform (plugin s)
             then JS.String_replace_im (Legacy.windowsSwitchCmd st) previous
             else JS.String_replace_im (Legacy.switchCmd st) previous in
  exec cmd (world s) = (r, w) →
  Legacy.switchToPreviousIME exec s =
    (inr tt,
     mkSys (plugin s) w
       (log s ++ logged "An error has occurred while switching IME mode" cmd r)).
Proof.
  intros Hst Hprev cmd Hex.
  unfold Legacy.switchToPreviousIME, bind at 1, this at 1. rewrite Hprev.
  unfold bind at 1, Legacy.this_settings, bind at 1, this at 1. rewrite Hst.
  unfold ret at 1. fold cmd. unfold bind, await_exec. rewrite Hex.
  destruct r as [out|err]; simpl; [reflexivity|].
  unfold showError. simpl. now rewrite <- app_assoc.
Qed.

Lemma onSwitchToInsert_run s st :
  Legacy.settings (plugin s) = Some st →
  Legacy.onSwitchToInsert exec s =
    if Legacy.switchOnInsert st then Legacy.switchToPreviousIME exec s
    else (inr tt, s).
Proof.
  intros Hst. unfold Legacy.onSwitchToInsert, bind at 1.
  unfold Legacy.this_settings, bind at 1, this at 1. rewrite Hst.
  unfold ret at 1. now destruct (Legacy.switchOnInsert st).
Qed.

Lemma switchToNormalIME_after_obtain s st stdout w1 r2 w2 :
  Legacy.settings (plugin s) = Some st →
  let obtain := if Legacy.isWinPlatform (plugin s)
                then Legacy.windowsObtainCmd st else Legacy.obtainCmd st in
  let switch :=
    if Legacy.isWinPlatform (plugin s)
    then JS.String_replace_im (Legacy.windowsSwitchCmd st) (Legacy.windowsDefaultIM st)
    else JS.String_replace_im (Legacy.switchCmd st) (Legacy.defaultIM st) in
  exec obtain (world s) = (ExecOk stdout, w1) →
  exec switch w1 = (r2, w2) →
  Legacy.switchToNormalIME exec s =
    (inr tt,
     mkSys (Legacy.set_previousIMEMode (Some stdout) (plugin s)) w2
       (log s ++ Exec obtain (ExecOk stdout)
              :: logged "An error occcurred while switching IME mode" switch r2)).
Proof.
  intros Hst obtain switch Hob Hsw.
  unfold Legacy.switchToNormalIME, bind at 1, this at 1.
  unfold bind at 1, Legacy.this_settings, bind at 1, this at 1. rewrite Hst.
  unfold ret at 1. fold obtain switch.
  unfold bind at 1, await_exec at 1. rewrite Hob.
  unfold bind at 1, assign at 1. unfold bind at 1, await_exec at 1.
  cbn [world plugin log]. rewrite Hsw.
  destruct r2 as [out|err]; simpl.
  - now rewrite <- app_assoc.
  - unfold showError. simpl. now rewrite <- !app_assoc.
Qed.

Lemma onSwitchToInsert_commands s st :
  Legacy.settings (plugin s) = Some st →
  commands (log (after (Legacy.onSwitchToInsert exec) s))
  = commands (log s)
    ++ match Legacy.switchOnInsert st, Legacy.previousIMEMode (plugin s) with
       | true, Some previous =>
           [if Legacy.isWinPlatform (plugin s)
            then JS.String_replace_im (Legacy.windowsSwitchCmd st) previous
            else JS.String_replace_im (Legacy.switchCmd st) previous]
       | _, _ => []
       end.
Proof.
  intros Hst. unfold after. rewrite (onSwitchToInsert_run s st Hst).
  destruct (Legacy.switchOnInsert st); [|now rewrite app_nil_r].
  destruct (Legacy.previousIMEMode (plugin s)) as [previous|] eqn:Hprev.
  - destruct (exec (if Legacy.isWinPlatform (plugin s)
                    then JS.String_replace_im (Legacy.windowsSwitchCmd st) previous
                    else JS.String_replace_im (Legacy.switchCmd st) previous)
                (world s)) as [r w] eqn:Hex.
    rewrite (switchToPreviousIME_run s st previous r w Hst Hprev Hex).
    cbn [log snd]. now rewrite commands_app, commands_logged.
  - unfold Legacy.switchToPreviousIME, bind, this. rewrite Hprev.
    simpl. now rewrite app_nil_r.
Qed.

(** X16.  [onSwitchToInsert] of [part_000] runs at most one command: none
    when [switchOnInsert] is off or nothing was captured, otherwise the
    switch command of the platform with [previousIMEMode] as target. *)
Theorem legacy_insert_commands s st :
  Legacy.settings (plugin s) = Some st →
  commands (log (after (Legacy.onSwitchToInsert exec) s))
  = commands (log s)
    ++ match Legacy.switchOnInsert st, Legacy.previousIMEMode (plugin s) with
       | true, Some previous =>
           [if Legacy.isWinPlatform (plugin s)
            then JS.String_replace_im (Legacy.windowsSwitchCmd st) previous
            else JS.String_replace_im (Legacy.switchCmd st) previous]
       | _, _ => []
       end.
Proof. exact (onSwitchToInsert_commands s st). Qed.

(** X17.  In [part_000], when the obtain command succeeds,
    [switchToNormalIME] stores its output and then runs the switch command
    with the platform's default IM. *)
Theorem legacy_normal_after_successful_obtain s st stdout w1 :
  Legacy.settings (plugin s) = Some st →
  let obtain := if Legacy.isWinPlatform (plugin s)
                then Legacy.windowsObtainCmd st else Legacy.obtainCmd st in
  exec obtain (world s) = (ExecOk stdout, w1) →
  Legacy.previousIMEMode (plugin (after (Legacy.switchToNormalIME exec) s))
  = Some stdout
  ∧ commands (log (after (Legacy.switchToNormalIME exec) s))
    = commands (log s)
      ++ [obtain;
          if Legacy.isWinPlatform (plugin s)
          then JS.String_replace_im (Legacy.windowsSwitchCmd st)
                 (Legacy.windowsDefaultIM st)
          else JS.String_replace_im (Legacy.switchCmd st) (Legacy.defaultIM st)].
Proof.
  intros Hst obtain Hob.
  destruct (exec (if Legacy.isWinPlatform (plugin s)
                  then JS.String_replace_im (Legacy.windowsSwitchCmd st)
                         (Legacy.windowsDefaultIM st)
                  else JS.String_replace_im (Legacy.switchCmd st)
                         (Legacy.defaultIM st)) w1) as [r2 w2] eqn:Hsw.
  unfold after.
  rewrite (switchToNormalIME_after_obtain s st stdout w1 r2 w2 Hst Hob Hsw).
  cbn [log plugin snd]. split; [reflexivity|].
  rewrite commands_app. f_equal. now destruct r2.
Qed.

(** X18.  Settings saved by [part_000] come back as they were:
    [loadSettings] on the object [saveSettings] stored makes
    [this.settings] equal to the settings saved. *)
Theorem legacy_settings_round_trip s st :
  Legacy.settings (plugin (after (Legacy.loadSettings (Some (Legacy.saved st))) s))
  = Some st.
Proof. destruct st. reflexivity. Qed.

(** X19.  In [part_000] the first insertion after [onload] is not a
    no-op: [onload] has put the platform's default IM into
    [previousIMEMode], so unless [switchOnInsert] is off,
    [onSwitchToInsert] on a newly loaded plugin runs the switch command
    with the default IM as target. *)
Theorem legacy_first_insert_after_onload
    (w : World) (data : option Legacy.Data) (os_type : string) :
  let st := Legacy.Object_assign Legacy.DEFAULT_SETTINGS data in
  let windows := String.eqb os_type "Windows_NT" in
  commands (log (after (Legacy.onSwitchToInsert exec)
                   (after (Legacy.onload data os_type)
                      (mkSys Legacy.new w []))))
  = if Legacy.switchOnInsert st
    then [if windows
          then JS.String_replace_im (Legacy.windowsSwitchCmd st)
                 (Legacy.windowsDefaultIM st)
          else JS.String_replace_im (Legacy.switchCmd st) (Legacy.defaultIM st)]
    else [].
Proof.
  intros st windows.
  set (s1 := after (Legacy.onload data os_type) (mkSys Legacy.new w [])).
  assert (Legacy.settings (plugin s1) = Some st) as Hst by reflexivity.
  rewrite (onSwitchToInsert_commands s1 st Hst).
  change (log s1) with (@nil Event).
  change (Legacy.previousIMEMode (plugin s1))
    with (Some (if windows then Legacy.windowsDefaultIM st else Legacy.defaultIM st)).
  change (Legacy.isWinPlatform (plugin s1)) with windows.
  destruct (Legacy.switchOnInsert st); [|reflexivity].
  now destruct windows.
Qed.

End LegacySwitcher.

(* ===================================================================== *)
(** * What the rewrite of [part_000] into [main.ts] kept *)
(* ===================================================================== *)

Section Rewrite.
Context {World : Type}.
Variable exec : string → World → ExecResult * World.

Implicit Types (s : Sys Legacy.State World) (st : Legacy.VimImPluginSettings).

Lemma upgrade_settings s st :
  Legacy.settings (plugin s) = Some st →
  VimImPlugin.settings (plugin (upgrade_sys s))
  = Some (loadSettings (Some (legacy_data st))).
Proof. intros Hst. simpl. now rewrite Hst. Qed.

Lemma upgrade_target s st :
  VimImPlugin.insertion_target
    (VimImPlugin.active (loadSettings (Some (legacy_data st)))
       (plugin (upgrade_sys s)))
    (plugin (upgrade_sys s))
  = Legacy.previousIMEMode (plugin s).
Proof.
  unfold VimImPlugin.insertion_target, VimImPlugin.active, upgrade_sys, upgrade.
  simpl. now destruct (Legacy.isWinPlatform (plugin s)).
Qed.

Lemma upgrade_insert_command s st previous :
  JS.String_replace_im
    (switchCmd (VimImPlugin.active (loadSettings (Some (legacy_data st)))
                  (plugin (upgrade_sys s)))) previous
  = if Legacy.isWinPlatform (plugin s)
    then JS.String_replace_im (Legacy.windowsSwitchCmd st) previous
    else JS.String_replace_im (Legacy.switchCmd st) previous.
Proof.
  unfold VimImPlugin.active, upgrade_sys, upgrade. simpl.
  now destruct (Legacy.isWinPlatform (plugin s)).
Qed.

(** X20.  Entering insert mode survived the rewrite: on a plugin of
    [part_000] with [switchOnInsert] on, carried over to [main.ts] with its
    data file, [onInsert] does exactly what [onSwitchToInsert] did: the
    same command, the same log, the same fields. *)
Theorem rewrite_keeps_insertion s st :
  Legacy.settings (plugin s) = Some st →
  Legacy.switchOnInsert st = true →
  after (VimImPlugin.onInsert exec) (upgrade_sys s)
  = upgrade_sys (after (Legacy.onSwitchToInsert exec) s).
Proof.
  intros Hst Hon. unfold after.
  rewrite (onInsert_dispatch exec _ _ (upgrade_settings s st Hst)).
  rewrite upgrade_target, (onSwitchToInsert_run exec s st Hst), Hon.
  destruct (Legacy.previousIMEMode (plugin s)) as [previous|] eqn:Hprev.
  - destruct (exec (if Legacy.isWinPlatform (plugin s)
                    then JS.String_replace_im (Legacy.windowsSwitchCmd st) previous
                    else JS.String_replace_im (Legacy.switchCmd st) previous)
                (world s)) as [r w] eqn:Hex.
    rewrite (switchToPreviousIME_run exec s st previous r w Hst Hprev Hex).
    rewrite (execSwitch_run exec _ _ previous r w (upgrade_settings s st Hst));
      rewrite upgrade_insert_command; [reflexivity | exact Hex].
  - unfold Legacy.switchToPreviousIME, bind, this. now rewrite Hprev.
Qed.

(** X21.  The switch [switchOnInsert] did not survive it: a plugin of
    [part_000] that had it off ran nothing on entering insert mode; carried
    over to [main.ts], with a snapshot at hand, it runs the switch command
    with the snapshot as target. *)
Theorem rewrite_drops_switchOnInsert s st previous :
  Legacy.settings (plugin s) = Some st →
  Legacy.switchOnInsert st = false →
  Legacy.previousIMEMode (plugin s) = Some previous →
  after (Legacy.onSwitchToInsert exec) s = s
  ∧ commands (log (after (VimImPlugin.onInsert exec) (upgrade_sys s)))
    = commands (log s)
      ++ [if Legacy.isWinPlatform (plugin s)
          then JS.String_replace_im (Legacy.windowsSwitchCmd st) previous
          else JS.String_replace_im (Legacy.switchCmd st) previous].
Proof.
  intros Hst Hoff Hprev. split.
  - unfold after. now rewrite (onSwitchToInsert_run exec s st Hst), Hoff.
  - unfold after.
    rewrite (onInsert_dispatch exec _ _ (upgrade_settings s st Hst)).
    rewrite upgrade_target, Hprev.
    destruct (exec (if Legacy.isWinPlatform (plugin s)
                    then JS.String_replace_im (Legacy.windowsSwitchCmd st) previous
                    else JS.String_replace_im (Legacy.switchCmd st) previous)
                (world s)) as [r w] eqn:Hex.
    rewrite (execSwitch_run exec _ _ previous r w (upgrade_settings s st Hst));
      rewrite upgrade_insert_command; [|exact Hex].
    cbn [log snd upgrade_sys]. now rewrite commands_app, commands_logged.
Qed.

(** X22.  Leaving insert mode survived the rewrite as long as the obtain
    command succeeds: [onNormal] on the plugin carried over runs the same
    two commands as [switchToNormalIME] did and leaves the same fields and
    the same world.  (When the obtain command fails the two differ: C1.) *)
Theorem rewrite_keeps_normal_after_successful_obtain s st stdout w1 :
  Legacy.settings (plugin s) = Some st →
  exec (if Legacy.isWinPlatform (plugin s)
        then Legacy.windowsObtainCmd st else Legacy.obtainCmd st) (world s)
    = (ExecOk stdout, w1) →
  plugin (after (VimImPlugin.onNormal exec) (upgrade_sys s))
  = upgrade (plugin (after (Legacy.switchToNormalIME exec) s))
  ∧ world (after (VimImPlugin.onNormal exec) (upgrade_sys s))
    = world (after (Legacy.switchToNormalIME exec) s)
  ∧ commands (log (after (VimImPlugin.onNormal exec) (upgrade_sys s)))
    = commands (log (after (Legacy.switchToNormalIME exec) s)).
Proof.
  intros Hst Hob.
  destruct (exec (if Legacy.isWinPlatform (plugin s)
                  then JS.String_replace_im (Legacy.windowsSwitchCmd st)
                         (Legacy.windowsDefaultIM st)
                  else JS.String_replace_im (Legacy.switchCmd st)
                         (Legacy.defaultIM st)) w1) as [r2 w2] eqn:Hsw.
  unfold after.
  rewrite (switchToNormalIME_after_obtain exec s st stdout w1 r2 w2 Hst Hob Hsw).
  rewrite (onNormal_run exec (upgrade_sys s) _ (ExecOk stdout) w1 r2 w2
             (upgrade_settings s st Hst)).
  - cbn [plugin world log snd upgrade_sys].
    split; [|split; [reflexivity|]].
    + unfold upgrade, VimImPlugin.set_previousIMEMode. simpl. now rewrite Hst.
    + rewrite !commands_app, !commands_logged. f_equal.
      unfold VimImPlugin.active, upgrade. simpl.
      destruct (Legacy.isWinPlatform (plugin s)), r2; reflexivity.
  - unfold VimImPlugin.active, upgrade_sys, upgrade. simpl.
    destruct (Legacy.isWinPlatform (plugin s)); exact Hob.
  - unfold VimImPlugin.active, upgrade_sys, upgrade. simpl.
    destruct (Legacy.isWinPlatform (plugin s)); exact Hsw.
Qed.

End Rewrite.

(* ===================================================================== *)
(** * The settings tab *)
(* ===================================================================== *)

Section SettingTabFacts.
Import VimImPlugin SampleSettingTab.

Implicit Types (s : Sys State (option Raw.Data)) (st : Settings).

Lemma loadSettings_saved st :
  loadSettings (Some (Raw.saved (saveSettings_raw st))) = st.
Proof. destruct st as [focus [a b c d] [e g h i]]. reflexivity. Qed.

Lemma onChange_run s st windows f value :
  settings (plugin s) = Some st →
  onChange windows f value s =
    (inr tt,
     mkSys (set_settings (write_platform windows f value st) (plugin s))
       (Some (Raw.saved (saveSettings_raw (write_platform windows f value st))))
       (log s)).
Proof.
  intros Hst. unfold onChange, bind at 1, this_settings, bind at 1, this at 1.
  rewrite Hst. reflexivity.
Qed.

(** X23.  A change made in a text field of the settings tab reaches both
    the plugin and the data file: afterwards the settings in memory have
    the new value in the field edited, and loading the data file gives
    exactly the settings in memory.  The other platform's record, the
    focus flag and the engine's fields are untouched. *)
Theorem setting_change_is_stored s st windows f value :
  settings (plugin s) = Some st →
  let st' := write_platform windows f value st in
  let s' := after (onChange windows f value) s in
  settings (plugin s') = Some st'
  ∧ loadSettings (world s') = st'
  ∧ platform_of st' windows = write_field f value (platform_of st windows)
  ∧ platform_of st' (negb windows) = platform_of st (negb windows)
  ∧ normalModeOnFocus st' = normalModeOnFocus st
  ∧ previousIMEMode (plugin s') = previousIMEMode (plugin s)
  ∧ previousVimMode (plugin s') = previousVimMode (plugin s)
  ∧ isWinPlatform (plugin s') = isWinPlatform (plugin s).
Proof.
  intros Hst st' s'. subst s'. unfold after.
  rewrite (onChange_run s st windows f value Hst). cbn [snd plugin world].
  fold st'. split; [reflexivity|]. split; [apply loadSettings_saved|].
  subst st'. destruct windows; simpl; auto 10.
Qed.

Lemma onToggle_run s st value :
  settings (plugin s) = Some st →
  onToggle value s =
    (inr tt,
     mkSys (set_settings (write_normalModeOnFocus value st) (plugin s))
       (Some (Raw.saved (saveSettings_raw (write_normalModeOnFocus value st))))
       (log s)).
Proof.
  intros Hst. unfold onToggle, bind at 1, this_settings, bind at 1, this at 1.
  rewrite Hst. reflexivity.
Qed.

(** X24.  The focus toggle is stored in the same way: memory and data
    file agree afterwards, and both platform records are as before. *)
Theorem focus_toggle_is_stored s st value :
  settings (plugin s) = Some st →
  let s' := after (onToggle value) s in
  settings (plugin s') = Some (write_normalModeOnFocus value st)
  ∧ loadSettings (world s') = write_normalModeOnFocus value st
  ∧ normalModeOnFocus (write_normalModeOnFocus value st) = value
  ∧ defaultPlatformSettings (write_normalModeOnFocus value st)
    = defaultPlatformSettings st
  ∧ windowsPlatformSettings (write_normalModeOnFocus value st)
    = windowsPlatformSettings st.
Proof.
  intros Hst s'. subst s'. unfold after.
  rewrite (onToggle_run s st value Hst). cbn [snd plugin world].
  split; [reflexivity|]. split; [apply loadSettings_saved|]. auto.
Qed.

(** X25.  A new switch command written in the settings tab for the
    platform in force is the one the very next [execSwitch] runs: nothing
    has to be reloaded. *)
Theorem setting_change_takes_effect_at_once
    {World : Type} (exec : string → World → ExecResult * World)
    s st value im (w : World) (l : list Event) :
  settings (plugin s) = Some st →
  commands (log (after (execSwitch exec im)
                   (mkSys (plugin (after (onChange (isWinPlatform (plugin s))
                                            SwitchCmd value) s))
                      w l)))
  = commands l ++ [JS.String_replace_im value im].
Proof.
  intros Hst. unfold after at 2.
  rewrite (onChange_run s st _ SwitchCmd value Hst). cbn [snd plugin].
  set (s1 := mkSys _ w l).
  assert (settings (plugin s1)
          = Some (write_platform (isWinPlatform (plugin s)) SwitchCmd value st))
    as Hst1 by reflexivity.
  assert (switchCmd (active (write_platform (isWinPlatform (plugin s))
                               SwitchCmd value st) (plugin s1)) = value) as Hcmd.
  { unfold active, s1. simpl. now destruct (isWinPlatform (plugin s)). }
  destruct (exec (JS.String_replace_im
                    (switchCmd (active (write_platform (isWinPlatform (plugin s))
                                          SwitchCmd value st) (plugin s1))) im)
              (world s1)) as [r w'] eqn:Hex.
  unfold after. rewrite (execSwitch_run exec s1 _ im r w' Hst1 Hex).
  cbn [log snd]. now rewrite commands_app, commands_logged, Hcmd.
Qed.

End SettingTabFacts.

(* ===================================================================== *)
(** * The further properties at work on concrete configurations *)
(* ===================================================================== *)

Section MoreExamples.
Import VimImPlugin Sample.

Lemma switch_command_without_token_witness :
  commands (log (after (execSwitch (shell pinyin_active) "$&")
                   (start (plugin_with toggling None (JS.Str "")))))
  = ["fcitx5-remote -c"].
Proof.
  refine (switch_command_without_token_runs_unchanged (shell pinyin_active)
            (start (plugin_with toggling None (JS.Str ""))) toggling "$&"
            eq_refl _).
  apply regexp_exec_None. reflexivity.
Defined.

Lemma first_token_replaced_witness :
  JS.String_replace_im "im-select {im} && echo {im}" "pinyin"
  = "im-select pinyin && echo {im}".
Proof.
  refine (first_token_replaced_rest_kept "im-select " " && echo {im}" "pinyin"
            eq_refl _).
  apply (regexp_exec_leftmost JS.im_token "im-select {im} && echo {im}"
           "im-select " " && echo {im}").
  reflexivity.
Defined.

Lemma handlers_do_not_throw_witness :
  (run (shell obtain_broken) (VimModeChange no_mode)
     (start (plugin_with config None (JS.Str "insert")))).1 = inr tt.
Proof.
  refine (handlers_do_not_throw (shell obtain_broken) (VimModeChange no_mode)
            (start (plugin_with config None (JS.Str "insert"))) config
            eq_refl _).
  split; discriminate.
Defined.

Lemma every_failure_is_reported_witness :
  every_failure_reported
    (log (after (run (shell obtain_broken) FileOpen)
            (start (plugin_with config None (JS.Str ""))))) = true.
Proof.
  exact (every_failure_is_reported (shell obtain_broken) FileOpen
           (start (plugin_with config None (JS.Str ""))) eq_refl).
Defined.

Lemma onNormal_runs_obtain_then_switch_witness :
  commands (log (after (onNormal (shell obtain_broken))
                   (start (plugin_with config None (JS.Str "insert")))))
  = ["im-select"; "im-select com.apple.keylayout.ABC"].
Proof.
  exact (onNormal_runs_obtain_then_switch (shell obtain_broken)
           (start (plugin_with config None (JS.Str "insert"))) config eq_refl).
Defined.

Lemma previousVimMode_records_witness :
  previousVimMode (plugin (notify (shell obtain_broken)
                             (start (plugin_with config None (JS.Str "insert")))
                             visual))
  = JS.Str "visual".
Proof.
  refine (previousVimMode_records_the_notification (shell obtain_broken)
            (start (plugin_with config None (JS.Str "insert"))) config visual
            (JS.Str "visual") eq_refl _ _).
  - vm_compute. reflexivity.
  - vm_compute. reflexivity.
Defined.




Lemma onload_selects_the_platform_witness :
  commands (log (after (onNormal (shell pinyin_active))
                   (after (onload None "Windows_NT")
                      (start (plugin_with config None (JS.Str ""))))))
  = ["im-select.exe"; "im-select.exe 1033"].
Proof.
  exact (onload_selects_the_platform (shell pinyin_active)
           (start (plugin_with config None (JS.Str ""))) config None
           "Windows_NT" eq_refl).
Defined.

Lemma first_insert_after_onload_witness :
  commands (log (after (onInsert (shell pinyin_active))
                   (after (onload None "Linux")
                      (start (plugin_with config None (JS.Str ""))))))
  = ["im-select com.apple.keylayout.ABC"].
Proof.
  exact (first_insert_after_onload_runs_a_command (shell pinyin_active)
           (start (plugin_with config None (JS.Str ""))) config None
           "Linux" eq_refl).
Defined.

Lemma legacy_insert_commands_witness :
  commands (log (after (Legacy.onSwitchToInsert (shell pinyin_active))
                   (legacy_start
                      (Legacy.mkState (Some legacy_config) (Some "kana")
                         (JS.Str "") false))))
  = ["im-select kana"].
Proof.
  exact (legacy_insert_commands (shell pinyin_active)
           (legacy_start
              (Legacy.mkState (Some legacy_config) (Some "kana") (JS.Str "") false))
           legacy_config eq_refl).
Defined.

Lemma legacy_normal_witness :
  Legacy.previousIMEMode
    (plugin (after (Legacy.switchToNormalIME (shell pinyin_active))
               (legacy_start
                  (Legacy.mkState (Some legacy_config) None (JS.Str "insert") false))))
  = Some ("pinyin" +:+ LF)
  ∧ commands
      (log (after (Legacy.switchToNormalIME (shell pinyin_active))
              (legacy_start
                 (Legacy.mkState (Some legacy_config) None (JS.Str "insert") false))))
    = ["im-select"; "im-select com.apple.keylayout.ABC"].
Proof.
  exact (legacy_normal_after_successful_obtain (shell pinyin_active)
           (legacy_start
              (Legacy.mkState (Some legacy_config) None (JS.Str "insert") false))
           legacy_config ("pinyin" +:+ LF) tt eq_refl eq_refl).
Defined.

Lemma rewrite_keeps_insertion_witness :
  log (after (onInsert (shell obtain_broken))
         (upgrade_sys
            (legacy_start
               (Legacy.mkState (Some legacy_config) (Some "kana") (JS.Str "") false))))
  = [Exec "im-select kana" (ExecOk "")].
Proof.
  exact (f_equal log
           (rewrite_keeps_insertion (shell obtain_broken)
              (legacy_start
                 (Legacy.mkState (Some legacy_config) (Some "kana") (JS.Str "") false))
              legacy_config eq_refl eq_refl)).
Defined.

Lemma rewrite_drops_switchOnInsert_witness :
  commands
    (log (after (onInsert (shell pinyin_active))
            (upgrade_sys
               (legacy_start
                  (Legacy.mkState (Some legacy_config_off) (Some "kana")
                     (JS.Str "") false)))))
  = ["im-select kana"].
Proof.
  exact (proj2 (rewrite_drops_switchOnInsert (shell pinyin_active)
                  (legacy_start
                     (Legacy.mkState (Some legacy_config_off) (Some "kana")
                        (JS.Str "") false))
                  legacy_config_off "kana" eq_refl eq_refl eq_refl)).
Defined.

Lemma rewrite_keeps_normal_witness :
  commands
    (log (after (onNormal (shell pinyin_active))
            (upgrade_sys
               (legacy_start
                  (Legacy.mkState (Some legacy_config) None (JS.Str "insert") false)))))
  = ["im-select"; "im-select com.apple.keylayout.ABC"].
Proof.
  refine (eq_trans
            (proj2 (proj2
               (rewrite_keeps_normal_after_successful_obtain (shell pinyin_active)
                  (legacy_start
                     (Legacy.mkState (Some legacy_config) None (JS.Str "insert") false))
                  legacy_config ("pinyin" +:+ LF) tt eq_refl eq_refl)))
            _).
  reflexivity.
Defined.

Lemma setting_change_is_stored_witness :
  loadSettings
    (world (after (SampleSettingTab.onChange false SampleSettingTab.InsertionIM "2")
              (tab_start (plugin_with config None (JS.Str "")))))
  = SampleSettingTab.write_platform false SampleSettingTab.InsertionIM "2" config.
Proof.
  exact (proj1 (proj2
           (setting_change_is_stored
              (tab_start (plugin_with config None (JS.Str ""))) config
              false SampleSettingTab.InsertionIM "2" eq_refl))).
Defined.

Lemma focus_toggle_is_stored_witness :
  normalModeOnFocus
    (loadSettings
       (world (after (SampleSettingTab.onToggle true)
                 (tab_start (plugin_with config None (JS.Str ""))))))
  = true.
Proof.
  exact (f_equal normalModeOnFocus
           (proj1 (proj2
              (focus_toggle_is_stored
                 (tab_start (plugin_with config None (JS.Str ""))) config
                 true eq_refl)))).
Defined.

Lemma setting_change_takes_effect_witness :
  commands
    (log (after (execSwitch (shell pinyin_active) "kana")
            (mkSys (plugin (after (SampleSettingTab.onChange false
                                     SampleSettingTab.SwitchCmd "ibus engine {im}")
                              (tab_start (plugin_with config None (JS.Str "")))))
               tt [])))
  = ["ibus engine kana"].
Proof.
  exact (setting_change_takes_effect_at_once (shell pinyin_active)
           (tab_start (plugin_with config None (JS.Str ""))) config
           "ibus engine {im}" "kana" tt [] eq_refl).
Defined.

End MoreExamples.
